(** * The otel-hooks hook engine (src/otel_hooks/hook.py)

    A shallow embedding of the transcript reader, the turn assembler, the
    text helpers, the session fingerprint and the [main] driver, with the
    properties the specification states about them.

    Conventions of the embedding:
    - a Python [str] is the list of its code points ([list N]); [py] turns a
      literal into one;
    - [bytes] is a list of octets ([list N], each below 256);
    - a value produced by [json.loads] is a [json]; a Python [dict] with string
      keys is a [gmap], whose equality is that of Python dicts (by content);
    - a Python call that can raise returns an [option]: [None] is the raised
      exception;
    - the functions of Python's library that the hook calls and that are not
      written out here are the fields of [PyBuiltins];
    - a call of the provider ends in one of three ways, since [main]
      catches [Exception] only: see [outcome];
    - the log file has no counterpart here: it is write-only. Of the
      advisory lock around the state file only the opening of the lock
      file is kept, which can raise; one invocation is looked at on its
      own, so the waiting for another holder is not. *)

From Stdlib Require Import ZArith NArith List Ascii String Lia.
From Stdlib Require Import Floats.SpecFloat Numbers.DecimalString.
From Stdlib Require Import Numbers.DecimalNat Numbers.DecimalFacts.
From stdpp Require Import base option list gmap.

Set Warnings "-register-all".
Set Default Proof Using "Type".

Local Open Scope Z_scope.

(** ** Python strings and bytes *)

Abbreviation pystr := (list N).
Abbreviation bytes := (list N).

Definition py (s : string) : pystr :=
  map N_of_ascii (list_ascii_of_string s).

(** The line feed, U+000A, and the replacement character U+FFFD. *)
Definition LF : N := 10%N.
Definition REPLACEMENT : N := 65533%N.

(** [len(s)] *)
Definition len {A} (s : list A) : Z := Z.of_nat (length s).

(** [str(n)] for a natural number, as used by f-strings. *)
Definition str_of_nat (n : nat) : pystr :=
  py (NilZero.string_of_uint (Nat.to_uint n)).

(** [s[:n]]: a negative bound counts from the end. *)
Definition slice_to {A} (s : list A) (n : Z) : list A :=
  if n <? 0 then take (Z.to_nat (len s + n)) s else take (Z.to_nat n) s.

(** [str.isspace] for one code point. *)
Definition isspace (c : N) : bool :=
  ((9 <=? c) && (c <=? 13) || (28 <=? c) && (c <=? 32)
   || (c =? 133) || (c =? 160) || (c =? 5760)
   || (8192 <=? c) && (c <=? 8202)
   || (c =? 8232) || (c =? 8233) || (c =? 8239) || (c =? 8287)
   || (c =? 12288))%N.

Fixpoint lstrip (s : pystr) : pystr :=
  match s with
  | c :: r => if isspace c then lstrip r else s
  | [] => []
  end.

(** [s.strip()] *)
Definition strip (s : pystr) : pystr := rev (lstrip (rev (lstrip s))).

(** [s.split("\n")]: never empty, the last item is what follows the last
    line feed. *)
Fixpoint split_lines (s : pystr) : list pystr :=
  match s with
  | [] => [[]]
  | c :: r =>
      if (c =? LF)%N then [] :: split_lines r
      else match split_lines r with
           | l :: ls => (c :: l) :: ls
           | [] => [[c]]
           end
  end.

(** [l[:-1]] and [l[-1]] on the result of a split. *)
Definition all_but_last {A} (l : list A) : list A := take (length l - 1) l.
Definition last_item (l : list pystr) : pystr := List.last l [].

(** [sep.join(items)] for strings. *)
Fixpoint join (sep : pystr) (items : list pystr) : pystr :=
  match items with
  | [] => []
  | [s] => s
  | s :: r => s ++ sep ++ join sep r
  end.

(** *** UTF-8 *)

Definition in_range (lo hi b : N) : bool := ((lo <=? b) && (b <=? hi))%N.
Definition is_cont (b : N) : bool := in_range 128 191 b.

(** The range allowed for the second octet after lead octet [b0]. *)
Definition second_ok (b0 b1 : N) : bool :=
  (if b0 =? 224 then in_range 160 191 b1
   else if b0 =? 237 then in_range 128 159 b1
   else if b0 =? 240 then in_range 144 191 b1
   else if b0 =? 244 then in_range 128 143 b1
   else is_cont b1)%N.

Definition cp2 (b0 b1 : N) : N := ((b0 - 192) * 64 + (b1 - 128))%N.
Definition cp3 (b0 b1 b2 : N) : N :=
  ((b0 - 224) * 4096 + (b1 - 128) * 64 + (b2 - 128))%N.
Definition cp4 (b0 b1 b2 b3 : N) : N :=
  ((b0 - 240) * 262144 + (b1 - 128) * 4096 + (b2 - 128) * 64 + (b3 - 128))%N.

(** [chunk.decode("utf-8", errors="replace")]: every maximal ill-formed
    run of octets becomes one U+FFFD; decoding never fails. *)
Fixpoint utf8_decode (bs : bytes) : pystr :=
  match bs with
  | [] => []
  | b0 :: r0 =>
      if (b0 <? 128)%N then b0 :: utf8_decode r0
      else if in_range 194 223 b0 then
        match r0 with
        | [] => [REPLACEMENT]
        | b1 :: r1 =>
            if is_cont b1 then cp2 b0 b1 :: utf8_decode r1
            else REPLACEMENT :: utf8_decode r0
        end
      else if in_range 224 239 b0 then
        match r0 with
        | [] => [REPLACEMENT]
        | b1 :: r1 =>
            if second_ok b0 b1 then
              match r1 with
              | [] => [REPLACEMENT]
              | b2 :: r2 =>
                  if is_cont b2 then cp3 b0 b1 b2 :: utf8_decode r2
                  else REPLACEMENT :: utf8_decode r1
              end
            else REPLACEMENT :: utf8_decode r0
        end
      else if in_range 240 244 b0 then
        match r0 with
        | [] => [REPLACEMENT]
        | b1 :: r1 =>
            if second_ok b0 b1 then
              match r1 with
              | [] => [REPLACEMENT]
              | b2 :: r2 =>
                  if is_cont b2 then
                    match r2 with
                    | [] => [REPLACEMENT]
                    | b3 :: r3 =>
                        if is_cont b3 then cp4 b0 b1 b2 b3 :: utf8_decode r3
                        else REPLACEMENT :: utf8_decode r2
                    end
                  else REPLACEMENT :: utf8_decode r1
              end
            else REPLACEMENT :: utf8_decode r0
        end
      else REPLACEMENT :: utf8_decode r0
  end.

(** The octets of one code point; surrogates cannot be encoded. *)
Definition utf8_encode_cp (c : N) : option bytes :=
  (if c <? 128 then Some [c]
   else if c <? 2048 then Some [192 + c / 64; 128 + c mod 64]
   else if in_range 55296 57343 c then None
   else if c <? 65536 then
     Some [224 + c / 4096; 128 + (c / 64) mod 64; 128 + c mod 64]
   else if c <? 1114112 then
     Some [240 + c / 262144; 128 + (c / 4096) mod 64;
           128 + (c / 64) mod 64; 128 + c mod 64]
   else None)%N.

(** [s.encode("utf-8")]; [None] is [UnicodeEncodeError]. *)
Fixpoint utf8_encode (s : pystr) : option bytes :=
  match s with
  | [] => Some []
  | c :: r =>
      match utf8_encode_cp c, utf8_encode r with
      | Some b, Some bs => Some (b ++ bs)
      | _, _ => None
      end
  end.

(** ** JSON values *)

Inductive json : Type :=
| JNull
| JBool (b : bool)
| JInt (z : Z)
| JFloat (f : spec_float)
| JStr (s : list N)
| JList (l : list json)
| JObj (d : gmap (list N) json).

Abbreviation dict := (gmap (list N) json).

(** Truth value of a JSON value, as [if v:], [not v] and [or] see it. *)
Definition truthy (v : json) : bool :=
  match v with
  | JNull => false
  | JBool b => b
  | JInt z => negb (z =? 0)
  | JFloat f => match f with S754_zero _ => false | _ => true end
  | JStr s => match s with [] => false | _ => true end
  | JList l => match l with [] => false | _ => true end
  | JObj d => negb (Nat.eqb (size d) 0)
  end.

(** [a or b] *)
Definition py_or (a b : json) : json := if truthy a then a else b.

(** [d.get(k)] and [d.get(k, default)] *)
Definition get (d : dict) (k : string) : json := default JNull (d !! py k).
Definition get_or (d : dict) (k : string) (dflt : json) : json :=
  default dflt (d !! py k).

(** [v == "literal"] *)
Definition eq_str (v : json) (s : string) : bool :=
  match v with
  | JStr t => bool_decide (t = py s)
  | _ => false
  end.

(** [x in ("user", "assistant")] *)
Definition is_role (v : json) : bool := eq_str v "user" || eq_str v "assistant".

(** [x if x in ("user", "assistant") else None] *)
Definition role_of (v : json) : option pystr :=
  match v with
  | JStr s => if is_role v then Some s else None
  | _ => None
  end.

(** [isinstance(x, dict) and x.get("type") == ty] *)
Definition has_type (ty : string) (x : json) : bool :=
  match x with
  | JObj d => eq_str (get d "type") ty
  | _ => false
  end.

(** [sep.join(items)] on arbitrary values: [TypeError] unless every item
    is a string. *)
Fixpoint as_strs (items : list json) : option (list pystr) :=
  match items with
  | [] => Some []
  | JStr s :: r => option_map (cons s) (as_strs r)
  | _ :: _ => None
  end.

Definition join_values (sep : pystr) (items : list json) : option pystr :=
  option_map (join sep) (as_strs items).

(** ** Library functions taken as given *)

Class PyBuiltins := {
  (** [json.loads(text)]; [None] when it raises *)
  json_loads : pystr -> option json;
  (** [hashlib.sha256(data).hexdigest()] *)
  sha256_hexdigest : bytes -> pystr;
  (** [str(v)] for a value that is not a string *)
  py_repr : json -> pystr;
  (** [int(text)] and [int(float)]; [None] when they raise *)
  int_of_str : pystr -> option Z;
  int_of_float : spec_float -> option Z;
  (** [str(Path(text).expanduser().resolve())]; [None] when it raises *)
  path_resolve : pystr -> option pystr;
}.

Section Hook.
Context `{PyBuiltins}.

(** [str(v)] *)
Definition py_str (v : json) : pystr :=
  match v with
  | JStr s => s
  | _ => py_repr v
  end.

(** [int(v)] *)
Definition py_int (v : json) : option Z :=
  match v with
  | JInt z => Some z
  | JBool b => Some (if b then 1 else 0)
  | JFloat f => int_of_float f
  | JStr s => int_of_str s
  | _ => None
  end.

(** ** Session fingerprint *)

Definition state_key (session_id transcript_path : pystr) : option pystr :=
  let raw := session_id ++ py "::" ++ transcript_path in
  option_map sha256_hexdigest (utf8_encode raw).

(** ** Transcript parsing helpers *)

Definition get_content (msg : json) : json :=
  match msg with
  | JObj d =>
      match d !! py "message" with
      | Some (JObj m) => get m "content"
      | _ => get d "content"
      end
  | _ => JNull
  end.

Definition get_role (msg : dict) : option pystr :=
  match role_of (get msg "type") with
  | Some t => Some t
  | None =>
      match get msg "message" with
      | JObj m => role_of (get m "role")
      | _ => None
      end
  end.

Definition is_tool_result (msg : dict) : bool :=
  if bool_decide (get_role msg = Some (py "user")) then
    match get_content (JObj msg) with
    | JList content => existsb (has_type "tool_result") content
    | _ => false
    end
  else false.

Definition iter_tool_results (content : json) : list json :=
  match content with
  | JList l => List.filter (has_type "tool_result") l
  | _ => []
  end.

Definition iter_tool_uses (content : json) : list json :=
  match content with
  | JList l => List.filter (has_type "tool_use") l
  | _ => []
  end.

(** The values [extract_text] collects from one item of a content list. *)
Definition text_part (x : json) : list json :=
  match x with
  | JObj d => if eq_str (get d "type") "text"
              then [get_or d "text" (JStr [])] else []
  | JStr _ => [x]
  | _ => []
  end.

Definition extract_text (content : json) : option pystr :=
  match content with
  | JStr s => Some s
  | JList l =>
      let parts := flat_map text_part l in
      join_values [LF] (List.filter truthy parts)
  | _ => Some []
  end.

Definition truncate_text (s : option pystr) (max_chars : Z)
  : option (pystr * dict) :=
  match s with
  | None =>
      Some ([], <[py "truncated" := JBool false]>
                 (<[py "orig_len" := JInt 0]> ∅))
  | Some s =>
      let orig_len := len s in
      if orig_len <=? max_chars then
        Some (s, <[py "truncated" := JBool false]>
                  (<[py "orig_len" := JInt orig_len]> ∅))
      else
        let head := slice_to s max_chars in
        match utf8_encode s with
        | None => None
        | Some data =>
            Some (head,
                  <[py "truncated" := JBool true]>
                    (<[py "orig_len" := JInt orig_len]>
                      (<[py "kept_len" := JInt (len head)]>
                        (<[py "sha256" := JStr (sha256_hexdigest data)]> ∅))))
        end
  end.

Definition get_model (msg : dict) : json :=
  match get msg "message" with
  | JObj m => py_or (get m "model") (JStr (py "claude"))
  | _ => JStr (py "claude")
  end.

Definition get_message_id (msg : dict) : option pystr :=
  match get msg "message" with
  | JObj m =>
      match get m "id" with
      | JStr (c :: mid) => Some (c :: mid)
      | _ => None
      end
  | _ => None
  end.

(** ** Incremental reader *)

Record SessionState := {
  offset : Z;
  buffer : pystr;
  turn_count : Z;
}.

(** [load_state()]: the dictionary held by the state file, [{}] when the
    file is absent or cannot be parsed. The argument is the parsed content
    of the file, if any; it need not be a dictionary. *)
Definition load_state (state_file : option json) : json :=
  default (JObj ∅) state_file.

(** [None]: [AttributeError] on a [.get] of a non-dictionary, or an
    [int(...)] that raises. *)
Definition load_session_state (global_state : json) (key : pystr)
  : option SessionState :=
  match global_state with
  | JObj g =>
      match default (JObj ∅) (g !! key) with
      | JObj s =>
          match py_int (get_or s "offset" (JInt 0)),
                py_int (get_or s "turn_count" (JInt 0)) with
          | Some o, Some t =>
              Some {| offset := o;
                      buffer := py_str (get_or s "buffer" (JStr []));
                      turn_count := t |}
          | _, _ => None
          end
      | _ => None
      end
  | _ => None
  end.

(** [now] is [datetime.now(timezone.utc).isoformat()]. *)
Definition write_session_state (global_state : dict) (key : pystr)
    (ss : SessionState) (now : pystr) : dict :=
  <[key := JObj (<[py "offset" := JInt (offset ss)]>
                 (<[py "buffer" := JStr (buffer ss)]>
                  (<[py "turn_count" := JInt (turn_count ss)]>
                   (<[py "updated" := JStr now]> ∅))))]> global_state.

(** What the file system answers for the transcript path. [Path.exists()]
    is false when [stat] fails because nothing is there ([ENOENT],
    [ENOTDIR], [EBADF], [ELOOP]) and lets every other [OSError] of [stat]
    through ([EACCES] on a directory of the path, [ENAMETOOLONG], ...). *)
Inductive FileState :=
| Missing                    (* [exists()] is false *)
| Inaccessible               (* [exists()] raises [OSError] *)
| Unreadable                 (* [exists()] is true, [open] raises *)
| Contents (data : bytes).

(** [transcript_path.exists()]; [None]: it raises. *)
Definition file_exists (f : FileState) : option bool :=
  match f with
  | Missing => Some false
  | Inaccessible => None
  | Unreadable | Contents _ => Some true
  end.

(** The loop over [lines[:-1]]: blank lines and lines [json.loads]
    rejects are dropped. *)
Definition parse_line (line : pystr) : option json :=
  match strip line with
  | [] => None
  | l => json_loads l
  end.

Definition parse_lines (lines : list pystr) : list json :=
  omap parse_line lines.

(** [None]: the [exists()] of line 257 raises; it stands before the
    [try], so the exception leaves the function. What [open], [seek] or
    [read] raise is caught. *)
Definition read_new_jsonl (transcript : FileState) (ss : SessionState)
  : option (list json * SessionState) :=
  match file_exists transcript, transcript with
  | None, _ => None
  | Some false, _ => Some ([], ss)
  | Some true, Contents data =>
      if offset ss <? 0 then Some ([], ss)          (* [seek] raises *)
      else
        let chunk := drop (Z.to_nat (offset ss)) data in
        let new_offset := offset ss + len chunk in   (* [f.tell()] *)
        match chunk with
        | [] => Some ([], ss)
        | _ =>
            let text := utf8_decode chunk in
            let combined := buffer ss ++ text in
            let lines := split_lines combined in
            Some (parse_lines (all_but_last lines),
                  {| offset := new_offset;
                     buffer := last_item lines;
                     turn_count := turn_count ss |})
        end
  | Some true, _ => Some ([], ss)                   (* [open] raises *)
  end.

(** ** Turn assembly *)

Record Turn := {
  user_msg : dict;
  assistant_msgs : list dict;
  tool_results_by_id : dict;
}.

(** The local variables of [build_turns]. *)
Record Assembly := {
  turns : list Turn;
  current_user : option dict;
  assistant_order : list pystr;
  assistant_latest : gmap (list N) dict;
  tool_results : dict;
}.

Definition flush_turn (a : Assembly) : Assembly :=
  match current_user a with
  | None => a
  | Some u =>
      if Nat.eqb (size (assistant_latest a)) 0 then a
      else
        let assistants :=
          omap (fun mid => assistant_latest a !! mid) (assistant_order a) in
        {| turns := turns a ++ [ {| user_msg := u;
                                    assistant_msgs := assistants;
                                    tool_results_by_id := tool_results a |} ];
           current_user := current_user a;
           assistant_order := assistant_order a;
           assistant_latest := assistant_latest a;
           tool_results := tool_results a |}
  end.

(** One [tool_result] fragment: [tool_results_by_id[str(tid)] = content]
    when [tid] is truthy. *)
Definition record_tool_result (m : dict) (tr : json) : dict :=
  match tr with
  | JObj d =>
      let tid := get d "tool_use_id" in
      if truthy tid then <[py_str tid := get d "content"]> m else m
  | _ => m
  end.

(** The body of the loop over [messages]. *)
Definition step (a : Assembly) (msg : dict) : Assembly :=
  let role := get_role msg in
  if is_tool_result msg then
    {| turns := turns a;
       current_user := current_user a;
       assistant_order := assistant_order a;
       assistant_latest := assistant_latest a;
       tool_results :=
         fold_left record_tool_result
           (iter_tool_results (get_content (JObj msg))) (tool_results a) |}
  else if bool_decide (role = Some (py "user")) then
    {| turns := turns (flush_turn a);
       current_user := Some msg;
       assistant_order := [];
       assistant_latest := ∅;
       tool_results := ∅ |}
  else if bool_decide (role = Some (py "assistant")) then
    match current_user a with
    | None => a
    | Some _ =>
        let mid :=
          default (py "noid:" ++ str_of_nat (length (assistant_order a)))
                  (get_message_id msg) in
        {| turns := turns a;
           current_user := current_user a;
           assistant_order :=
             match assistant_latest a !! mid with
             | None => assistant_order a ++ [mid]
             | Some _ => assistant_order a
             end;
           assistant_latest := <[mid := msg]> (assistant_latest a);
           tool_results := tool_results a |}
    end
  else a.

Definition start : Assembly :=
  {| turns := []; current_user := None; assistant_order := [];
     assistant_latest := ∅; tool_results := ∅ |}.

Definition build_turns (messages : list dict) : list Turn :=
  turns (flush_turn (fold_left step messages start)).

(** [build_turns] on what [read_new_jsonl] returned: a record that is not
    a dictionary makes [get_role] raise [AttributeError]. *)
Fixpoint as_dicts (msgs : list json) : option (list dict) :=
  match msgs with
  | [] => Some []
  | JObj d :: r => option_map (cons d) (as_dicts r)
  | _ :: _ => None
  end.

(** ** Hook payload *)

Definition read_hook_payload (data : pystr) : json :=
  match strip data with
  | [] => JObj ∅
  | _ => default (JObj ∅) (json_loads data)
  end.

(** [Path(transcript).expanduser().resolve()] under [try]; a path is
    carried as its string. *)
Definition resolve (transcript : json) : option pystr :=
  match transcript with
  | JStr s => path_resolve s
  | _ => None
  end.

(** [None]: [AttributeError], when the payload, or a ["session"] or
    ["transcript"] member that gets consulted, is not a dictionary. *)
Definition extract_session_and_transcript (payload : json)
  : option (json * option pystr) :=
  match payload with
  | JObj p =>
      let session_id :=
        let a := py_or (get p "sessionId") (get p "session_id") in
        if truthy a then Some a
        else match get_or p "session" (JObj ∅) with
             | JObj s => Some (py_or (get s "id") (get p "conversation_id"))
             | _ => None
             end in
      let transcript :=
        let a := py_or (get p "transcriptPath") (get p "transcript_path") in
        if truthy a then Some a
        else match get_or p "transcript" (JObj ∅) with
             | JObj t => Some (get t "path")
             | _ => None
             end in
      match session_id, transcript with
      | Some sid, Some tr =>
          Some (sid, if truthy tr then resolve tr else None)
      | _, _ => None
      end
  | _ => None
  end.

(** ** The sink and the driver *)

(** How a call of the provider ends, as far as [main] can tell: it
    returns, it raises an exception that [except Exception] catches, or it
    raises one that is no [Exception] ([KeyboardInterrupt], [SystemExit],
    ...), which no handler of [main] catches. *)
Inductive outcome :=
| Returns
| Raises
| Escapes.

Definition escapes (r : outcome) : bool :=
  match r with Escapes => true | _ => false end.

(** A provider, seen from the engine: how each of its calls ends. *)
Record Provider := {
  emit_turn_result : json -> Z -> Turn -> pystr -> outcome;
  flush_result : outcome;
  shutdown_result : outcome;
}.

(** What one invocation does to the outside, in order. *)
Inductive event :=
| Constructed (name : pystr)
| EmitTurn (session_id : json) (turn_num : Z) (t : Turn)
           (transcript_path : pystr) (result : outcome)
| Flush (result : outcome)
| Shutdown (result : outcome).

(** What one invocation finds. The two environment variables are given
    lower-cased, as [main] reads them; [construct] is what building the
    named provider yields with the installed packages and credentials;
    [lock_opens] says whether [FileLock.__enter__] gets through its
    [mkdir] and its [open] of the lock file, which stand outside its
    [try] (a lock that is held by another process is waited for and then
    given up, without an exception). *)
Record World := {
  env_enabled : pystr;
  env_provider : pystr;
  construct : pystr -> option Provider;
  stdin : pystr;
  files : pystr -> FileState;
  lock_opens : bool;
  state_file : option json;
  now : pystr;
}.

(** [status]: the value [main] returns, [None] when an exception leaves it.
    [saved]: the dictionary handed to [save_state], if it was called; the
    write of the state file itself is taken to succeed. *)
Record Outcome := {
  status : option Z;
  saved : option dict;
  trace : list event;
}.

Definition _create_provider (w : World) (name : pystr) : option Provider :=
  if bool_decide (name = py "langfuse") || bool_decide (name = py "otlp")
     || bool_decide (name = py "datadog")
  then construct w name
  else None.

(** The [for t in turns] loop; returns the calls made and [emitted], or
    [None] for [emitted] when a call raises what [except Exception] does
    not catch: the loop ends there. *)
Fixpoint dispatch (p : Provider) (session_id : json) (path : pystr)
    (count emitted : Z) (ts : list Turn) : option Z * list event :=
  match ts with
  | [] => (Some emitted, [])
  | t :: r =>
      let emitted := emitted + 1 in
      let turn_num := count + emitted in
      let result := emit_turn_result p session_id turn_num t path in
      let call := EmitTurn session_id turn_num t path result in
      if escapes result then (None, [call])
      else
        let '(n, calls) := dispatch p session_id path count emitted r in
        (n, call :: calls)
  end.

(** The body of the [try]: what is saved, which sink calls are made
    before the [finally], and whether an exception leaves the [try]
    uncaught. An [Exception] raised inside it, that of a lock file that
    cannot be opened among them, is caught by the handler of line 455; what
    a call of the provider raises outside [Exception] is not. *)
Definition process (w : World) (p : Provider) (session_id : json)
    (path : pystr) : option dict * list event * bool :=
  if negb (lock_opens w) then (None, [], false)
  else
  match load_state (state_file w), state_key (py_str session_id) path with
  | JObj g, Some key =>
      match load_session_state (JObj g) key with
      | None => (None, [], false)
      | Some ss0 =>
          match read_new_jsonl (files w path) ss0 with
          | None => (None, [], false)
          | Some ([], ss) =>
              (Some (write_session_state g key ss (now w)), [], false)
          | Some (msgs, ss) =>
              match as_dicts msgs with
              | None => (None, [], false)
              | Some ms =>
                  match build_turns ms with
                  | [] =>
                      (Some (write_session_state g key ss (now w)), [], false)
                  | ts =>
                      match dispatch p session_id path (turn_count ss) 0 ts
                      with
                      | (None, calls) => (None, calls, true)
                      | (Some emitted, calls) =>
                          let ss' :=
                            {| offset := offset ss;
                               buffer := buffer ss;
                               turn_count := turn_count ss + emitted |} in
                          (Some (write_session_state g key ss' (now w)),
                           calls ++ [Flush (flush_result p)],
                           escapes (flush_result p))
                      end
                  end
              end
          end
      end
  | _, _ => (None, [], false)
  end.

Definition main (w : World) : Outcome :=
  if negb (bool_decide (env_enabled w = py "true")) then
    {| status := Some 0; saved := None; trace := [] |}
  else
    let provider_name := env_provider w in
    match provider_name with
    | [] => {| status := Some 0; saved := None; trace := [] |}
    | _ =>
        match _create_provider w provider_name with
        | None => {| status := Some 0; saved := None; trace := [] |}
        | Some provider =>
            let made := Constructed provider_name in
            let payload := read_hook_payload (stdin w) in
            match extract_session_and_transcript payload with
            | None => {| status := None; saved := None; trace := [made] |}
            | Some (session_id, transcript_path) =>
                match truthy session_id, transcript_path with
                | true, Some path =>
                    match file_exists (files w path) with
                    | None =>
                        {| status := None; saved := None; trace := [made] |}
                    | Some false =>
                        {| status := Some 0; saved := None; trace := [made] |}
                    | Some true =>
                        let '(sv, calls, uncaught) :=
                          process w provider session_id path in
                        let closing := shutdown_result provider in
                        {| status := if uncaught || escapes closing
                                     then None else Some 0;
                           saved := sv;
                           trace := made :: calls ++ [Shutdown closing] |}
                    end
                | _, _ =>
                    {| status := Some 0; saved := None; trace := [made] |}
                end
            end
        end
    end.

End Hook.

(** ** Definitions used to state the properties *)

(** *** Values for worked instances *)

(** A literal in which the apostrophe stands for the double quote. *)
Definition quoted (s : string) : pystr :=
  map (fun c => if (c =? 39)%N then 34%N else c) (py s).

Definition line_user : pystr := quoted "{'type':'user'}".
Definition line_assistant : pystr := quoted "{'type':'assistant'}".
Definition line_user_again : pystr :=
  quoted "{'type':'user','content':'again'}".
Definition msg_user : dict := <[py "type" := JStr (py "user")]> ∅.
Definition msg_assistant : dict := <[py "type" := JStr (py "assistant")]> ∅.
Definition msg_user_again : dict :=
  <[py "type" := JStr (py "user")]>
    (<[py "content" := JStr (py "again")]> ∅).

(** The payload of the specification's scenario. *)
Definition scenario_payload : pystr :=
  quoted "{'session_id':'s1','transcript_path':'/tmp/t.jsonl'}".

(** The JSON texts used below with the values [json.loads] gives them. *)
Definition known_json : list (pystr * json) :=
  [ (line_user, JObj msg_user);
    (line_assistant, JObj msg_assistant);
    (line_user_again, JObj msg_user_again);
    (py "{}", JObj ∅);
    (quoted "{'session_id':'s1'}",
     JObj (<[py "session_id" := JStr (py "s1")]> ∅));
    (scenario_payload,
     JObj (<[py "session_id" := JStr (py "s1")]>
           (<[py "transcript_path" := JStr (py "/tmp/t.jsonl")]> ∅))) ].

(** An instance on which the embedding can be evaluated. [json_loads] is
    the table above, which agrees with [json.loads] on its entries; the
    other functions are placeholders, not Python's, and serve where the
    library's answer does not matter. *)
Definition example_builtins : PyBuiltins := {|
  json_loads := fun s =>
    option_map snd (List.find (fun kv => bool_decide (fst kv = s)) known_json);
  sha256_hexdigest := fun data => data;
  py_repr := fun _ => [];
  int_of_str := fun _ => None;
  int_of_float := fun _ => None;
  path_resolve := fun s => Some s;
|}.

(** *** Text extraction *)

(** The text one item of a content list contributes: the ["text"] member
    of a fragment typed ["text"], or the item itself when it is a bare
    string. *)
Definition item_text (x : json) : option pystr :=
  match x with
  | JObj d =>
      if eq_str (get d "type") "text" then
        match d !! py "text" with
        | Some (JStr s) => Some s
        | _ => None
        end
      else None
  | JStr s => Some s
  | _ => None
  end.

Definition nonempty (s : pystr) : bool :=
  match s with [] => false | _ => true end.

(** What [extract_text] returns on well-formed content. *)
Definition extracted (content : json) : pystr :=
  match content with
  | JStr s => s
  | JList l => join [LF] (List.filter nonempty (omap item_text l))
  | _ => []
  end.

(** A ["text"] member that is present and truthy is a string. *)
Definition text_member_ok (x : json) : bool :=
  match x with
  | JObj d =>
      if eq_str (get d "type") "text" then
        match d !! py "text" with
        | Some (JStr _) | None => true
        | Some v => negb (truthy v)
        end
      else true
  | _ => true
  end.

Definition content_ok (content : json) : bool :=
  match content with
  | JList l => forallb text_member_ok l
  | _ => true
  end.

(** The reading of the specification: the texts of the fragments typed
    ["text"], all of them, joined by line feeds; every other item of the
    list is ignored. *)
Definition typed_text (x : json) : option pystr :=
  match x with
  | JObj d =>
      if eq_str (get d "type") "text" then
        match d !! py "text" with
        | Some (JStr s) => Some s
        | _ => None
        end
      else None
  | _ => None
  end.

Definition extract_text_as_specified (content : json) : pystr :=
  match content with
  | JStr s => s
  | JList l => join [LF] (omap typed_text l)
  | _ => []
  end.

Definition text_fragment (s : string) : json :=
  JObj (<[py "type" := JStr (py "text")]> (<[py "text" := JStr (py s)]> ∅)).

(** *** Turn assembly *)

Section Shapes.
Context `{PyBuiltins}.

(** A user message that is not a tool result: it closes the open turn and
    opens the next. *)
Definition opens_turn (m : dict) : bool :=
  bool_decide (get_role m = Some (py "user")) && negb (is_tool_result m).

(** An assistant message. *)
Definition is_reply (m : dict) : bool :=
  bool_decide (get_role m = Some (py "assistant")).

(** An assistant message occurs before the next message that opens a turn,
    or the end of the list. *)
Fixpoint replied (l : list dict) : bool :=
  match l with
  | [] => false
  | m :: r => if opens_turn m then false
              else if is_reply m then true else replied r
  end.

(** Every message that opens a turn is replied to. *)
Fixpoint all_replied (l : list dict) : bool :=
  match l with
  | [] => true
  | m :: r => (if opens_turn m then replied r else true) && all_replied r
  end.

(** Neither opens a turn nor replies: a tool result, or a record with no
    role. *)
Definition quiet (m : dict) : bool := negb (opens_turn m) && negb (is_reply m).

(** The key and value a [tool_result] fragment stores, if any. *)
Definition tool_write (tr : json) : option (pystr * json) :=
  match tr with
  | JObj d =>
      let tid := get d "tool_use_id" in
      if truthy tid then Some (py_str tid, get d "content") else None
  | _ => None
  end.

(** The value the last fragment written under [k] carries. *)
Fixpoint last_write (k : pystr) (frs : list json) : option json :=
  match frs with
  | [] => None
  | tr :: r =>
      match last_write k r with
      | Some v => Some v
      | None =>
          match tool_write tr with
          | Some (k', v) => if bool_decide (k' = k) then Some v else None
          | None => None
          end
      end
  end.

(** Every id with a latest message has its place in the order, and every
    turn closed so far has an assistant message. *)
Definition tidy (a : Assembly) : Prop :=
  (∀ mid, is_Some (assistant_latest a !! mid) → mid ∈ assistant_order a)
  ∧ Forall (λ t, assistant_msgs t ≠ []) (turns a).

End Shapes.

(** *** The driver *)





Definition is_shutdown (e : event) : bool :=
  match e with Shutdown _ => true | _ => false end.


Section Driver.
Context `{PyBuiltins}.


(** The calls of the dispatch loop as the specification numbers them. *)
Definition numbered_calls (p : Provider) (session_id : json) (path : pystr)
    (count : Z) (ts : list Turn) : list event :=
  imap (fun i t =>
          let turn_num := count + Z.of_nat i + 1 in
          EmitTurn session_id turn_num t path
            (emit_turn_result p session_id turn_num t path)) ts.

End Driver.

(** An [emit_turn] call that raised what [except Exception] lets through. *)
Definition escaped_call (e : event) : bool :=
  match e with
  | EmitTurn _ _ _ _ result => escapes result
  | _ => false
  end.

(** Every call returned or raised an [Exception]. *)
Definition all_caught (calls : list event) : bool :=
  forallb (fun e => negb (escaped_call e)) calls.

(** The calls up to the first one that escaped, that one included. *)
Fixpoint until_escape (calls : list event) : list event :=
  match calls with
  | [] => []
  | e :: r => if escaped_call e then [e] else e :: until_escape r
  end.


(** A user-role message carrying one tool result. *)
Definition msg_tool_result : dict :=
  <[py "type" := JStr (py "user")]>
    (<[py "message" :=
         JObj (<[py "role" := JStr (py "user")]>
               (<[py "content" :=
                    JList [JObj (<[py "type" := JStr (py "tool_result")]>
                                 (<[py "tool_use_id" := JStr (py "t1")]>
                                  (<[py "content" := JStr (py "ok")]> ∅)))]]>
                ∅))]> ∅).

(** A provider whose every [emit_turn] raises. *)
Definition failing_provider : Provider :=
  {| emit_turn_result := fun _ _ _ _ => Raises;
     flush_result := Returns; shutdown_result := Returns |}.

(** The scenario of the specification: the sink is configured, the payload
    names session [s1] and a transcript holding one user message and one
    assistant message, and no state was stored before. *)
Definition scenario_world : World :=
  {| env_enabled := py "true";
     env_provider := py "otlp";
     construct := fun _ => Some failing_provider;
     stdin := scenario_payload;
     files := fun path =>
       if bool_decide (path = py "/tmp/t.jsonl")
       then Contents (line_user ++ [LF] ++ line_assistant ++ [LF])
       else Missing;
     lock_opens := true;
     state_file := None;
     now := py "2026-01-01T00:00:00+00:00" |}.

(** The same, with a payload that names nothing. *)
Definition empty_payload_world : World :=
  {| env_enabled := py "true";
     env_provider := py "otlp";
     construct := fun _ => Some failing_provider;
     stdin := py "{}";
     files := files scenario_world;
     lock_opens := true;
     state_file := None;
     now := now scenario_world |}.


(** The same, with the transcript file gone. *)
Definition no_transcript_world : World :=
  {| env_enabled := py "true";
     env_provider := py "otlp";
     construct := fun _ => Some failing_provider;
     stdin := scenario_payload;
     files := fun _ => Missing;
     lock_opens := true;
     state_file := None;
     now := now scenario_world |}.

(** ** Further definitions used to state properties *)

(** *** Turn assembly, continued *)

Section Segments.
Context `{PyBuiltins}.

(** State [a] with the turns [p] closed before it. *)
Definition after_turns (p : list Turn) (a : Assembly) : Assembly :=
  {| turns := p ++ turns a;
     current_user := current_user a;
     assistant_order := assistant_order a;
     assistant_latest := assistant_latest a;
     tool_results := tool_results a |}.

(** The [tool_result] fragments of the tool-result messages of a list, in
    the order [build_turns] meets them. *)
Definition tool_fragments (l : list dict) : list json :=
  flat_map (fun m => if is_tool_result m
                     then iter_tool_results (get_content (JObj m)) else []) l.

(** The ids of the assistant messages of a list that carry one. *)
Definition reply_ids (l : list dict) : list pystr :=
  omap get_message_id (List.filter is_reply l).

(** The distinct items of a list in the order of their first occurrence. *)
Definition first_seen (l : list pystr) : list pystr :=
  reverse (remove_dups (reverse l)).

(** The last assistant message of [l] that carries the id [mid]. *)
Definition latest_with (mid : pystr) (l : list dict) : option dict :=
  last (List.filter
          (fun m => is_reply m && bool_decide (get_message_id m = Some mid)) l).

(** The key [build_turns] gives the [i]-th entry when its message has no
    id. *)
Definition noid (i : nat) : pystr := py "noid:" ++ str_of_nat i.

(** The messages of every closed turn, of the open one and of the latest
    map are messages of [msgs] of the right kind. *)
Definition drawn_from (msgs : list dict) (a : Assembly) : Prop :=
  Forall (fun t => (user_msg t ∈ msgs ∧ opens_turn (user_msg t) = true)
                   ∧ Forall (fun m => m ∈ msgs ∧ is_reply m = true)
                       (assistant_msgs t)) (turns a)
  ∧ (∀ u, current_user a = Some u → u ∈ msgs ∧ opens_turn u = true)
  ∧ (∀ mid m, assistant_latest a !! mid = Some m →
              m ∈ msgs ∧ is_reply m = true).

End Segments.

(** *** The driver, continued *)

(** The turn numbers of the [emit_turn] calls of a trace, in order. *)
Definition turn_numbers (tr : list event) : list Z :=
  omap (fun e => match e with
                 | EmitTurn _ n _ _ _ => Some n
                 | _ => None
                 end) tr.

(** The world the next invocation of the same session finds: the state
    file holds what was saved, the transcript is what [fs] says, the clock
    reads [t]. *)
Definition next_world (w : World) (g : dict) (fs : pystr -> FileState)
    (t : pystr) : World :=
  {| env_enabled := env_enabled w;
     env_provider := env_provider w;
     construct := construct w;
     stdin := stdin w;
     files := fs;
     lock_opens := lock_opens w;
     state_file := Some (JObj g);
     now := t |}.

Section Runs.
Context `{PyBuiltins}.

(** The invocation passes every guard and gets to assemble turns. *)
Definition reaches_assembly (w : World) (p : Provider) (sid : json)
    (path : pystr) (g : dict) (key : pystr) (ss0 ss : SessionState)
    (msgs : list json) (ms : list dict) : Prop :=
  env_enabled w = py "true"
  ∧ _create_provider w (env_provider w) = Some p
  ∧ extract_session_and_transcript (read_hook_payload (stdin w))
    = Some (sid, Some path)
  ∧ truthy sid = true
  ∧ file_exists (files w path) = Some true
  ∧ lock_opens w = true
  ∧ load_state (state_file w) = JObj g
  ∧ state_key (py_str sid) path = Some key
  ∧ load_session_state (JObj g) key = Some ss0
  ∧ read_new_jsonl (files w path) ss0 = Some (msgs, ss)
  ∧ as_dicts msgs = Some ms.

End Runs.

(** ** The providers' view of a turn (providers/otlp.py, langfuse.py,
    datadog.py) *)

Section Providers.
Context `{PyBuiltins}.

(** The dictionary [_tool_calls_from_assistants] builds for one
    [tool_use] fragment. A JSON value is an instance of one of [dict],
    [list], [str], [int], [float], [bool] unless it is [None].
    [iter_tool_uses] yields dictionaries only, so the last branch is never
    taken. *)
Definition tool_call (tu : json) : dict :=
  match tu with
  | JObj d =>
      let tid := py_or (get d "id") (JStr []) in
      <[py "id" := JStr (py_str tid)]>
        (<[py "name" := py_or (get d "name") (JStr (py "unknown"))]>
          (<[py "input" := match get d "input" with
                           | JNull => JObj ∅
                           | v => v
                           end]> ∅))
  | _ => ∅
  end.

Definition _tool_calls_from_assistants (assistant_msgs : list dict)
  : list dict :=
  flat_map (fun am => map tool_call (iter_tool_uses (get_content (JObj am))))
    assistant_msgs.

(** What the call made for a [tool_use] fragment is to hold, member by
    member: the id as a string, empty when the fragment has no truthy id;
    the name, ["unknown"] when the fragment has no truthy name; the input,
    [{}] when the fragment has none; and nothing else. *)
Definition call_for (tu : json) (c : dict) : Prop :=
  ∃ d, tu = JObj d
       ∧ c !! py "id"
         = Some (JStr (if truthy (get d "id") then py_str (get d "id")
                       else []))
       ∧ c !! py "name"
         = Some (if truthy (get d "name") then get d "name"
                 else JStr (py "unknown"))
       ∧ c !! py "input"
         = Some (match get d "input" with JNull => JObj ∅ | v => v end)
       ∧ ∀ k, k ≠ py "id" → k ≠ py "name" → k ≠ py "input" → c !! k = None.

(** The value [emit_turn] stores under ["output"] for one call.
    [json_dumps] is [json.dumps(v, ensure_ascii=False)] and [max_chars] is
    [MAX_CHARS]; [None] is an exception raised by [truncate_text]. *)
Definition call_output (json_dumps : json -> pystr) (max_chars : Z)
    (results : dict) (c : dict) : option json :=
  match get c "id" with
  | JStr (ch :: rest) =>
      match results !! (ch :: rest) with
      | Some out_raw =>
          let out_str := match out_raw with
                         | JStr s => s
                         | _ => json_dumps out_raw
                         end in
          option_map (fun r => JStr (fst r))
            (truncate_text (Some out_str) max_chars)
      | None => Some JNull
      end
  | _ => Some JNull
  end.

End Providers.

(** *** Further values for worked instances *)

(** An assistant message with a message id and a text. *)
Definition msg_reply (mid text : string) : dict :=
  <[py "type" := JStr (py "assistant")]>
    (<[py "message" :=
         JObj (<[py "id" := JStr (py mid)]>
               (<[py "content" := JStr (py text)]> ∅))]> ∅).

(** A [tool_use] fragment asking for tool [t1]. *)
Definition tool_use_t1 : dict :=
  <[py "type" := JStr (py "tool_use")]>
    (<[py "id" := JStr (py "t1")]>
     (<[py "name" := JStr (py "Bash")]> ∅)).

(** The transcript of the scenario after a second exchange was appended. *)
Definition grown_files (path : pystr) : FileState :=
  if bool_decide (path = py "/tmp/t.jsonl")
  then Contents (line_user ++ [LF] ++ line_assistant ++ [LF]
                 ++ line_user ++ [LF] ++ line_assistant ++ [LF])
  else Missing.

(** What the first invocation of the scenario saves. *)
Definition scenario_saved : dict :=
  write_session_state ∅ (py "s1::/tmp/t.jsonl")
    {| offset := 37; buffer := []; turn_count := 1 |}
    (py "2026-01-01T00:00:00+00:00").

(** A state file that holds the session of the scenario after three
    turns, and another session. *)
Definition stored_state : dict :=
  <[py "s1::/tmp/t.jsonl" :=
      JObj (<[py "offset" := JInt 37]>
            (<[py "buffer" := JStr []]>
             (<[py "turn_count" := JInt 3]>
              (<[py "updated" := JStr (py "2025-12-31T00:00:00+00:00")]>
               ∅))))]>
    (<[py "s2::/tmp/u.jsonl" :=
         JObj (<[py "offset" := JInt 5]>
               (<[py "turn_count" := JInt 9]> ∅))]> ∅).

(** The transcript of the scenario after two more exchanges. *)
Definition resumed_files (path : pystr) : FileState :=
  if bool_decide (path = py "/tmp/t.jsonl")
  then Contents (line_user ++ [LF] ++ line_assistant ++ [LF]
                 ++ line_user_again ++ [LF] ++ line_assistant ++ [LF]
                 ++ line_user ++ [LF] ++ line_assistant ++ [LF])
  else Missing.

(** A provider whose [emit_turn] raises an [Exception] at turn 4 and
    returns otherwise, and whose [flush] raises one too. *)
Definition flaky_provider : Provider :=
  {| emit_turn_result := fun _ n _ _ => if n =? 4 then Raises else Returns;
     flush_result := Raises; shutdown_result := Returns |}.

(** A provider whose [emit_turn] is interrupted at turn 4: it raises
    [KeyboardInterrupt], which is no [Exception]. *)
Definition interrupted_provider : Provider :=
  {| emit_turn_result := fun _ n _ _ => if n =? 4 then Escapes else Returns;
     flush_result := Returns; shutdown_result := Returns |}.

(** The session of the scenario, invoked again on the stored state. *)
Definition resumed_world (p : Provider) : World :=
  {| env_enabled := py "true";
     env_provider := py "otlp";
     construct := fun _ => Some p;
     stdin := scenario_payload;
     files := resumed_files;
     lock_opens := true;
     state_file := Some (JObj stored_state);
     now := py "2026-01-01T00:00:00+00:00" |}.

(** The scenario with a state directory in which no lock file can be
    opened. *)
Definition lockless_world : World :=
  {| env_enabled := py "true";
     env_provider := py "otlp";
     construct := fun _ => Some failing_provider;
     stdin := scenario_payload;
     files := files scenario_world;
     lock_opens := false;
     state_file := None;
     now := now scenario_world |}.

(** * Properties *)

Section Properties.
Context `{PyBuiltins}.

(** ** Session fingerprint *)

Lemma load_after_write (g : dict) (key : pystr) (ss : SessionState) (t : pystr) :
  load_session_state (JObj (write_session_state g key ss t)) key = Some ss.
Proof.
  unfold load_session_state, write_session_state.
  rewrite lookup_insert_eq. simpl. by destruct ss.
Qed.

(** C10. [state_key] is not injective: session id ["a::b"] with path
    ["c"] and session id ["a"] with path ["b::c"] are distinct pairs, both
    hash the text ["a::b::c"], so they get the same key; whatever cursor
    state one of them writes under its key, the other one loads. *)
Theorem state_key_not_injective :
  let raw := py "a::b::c" in
  (py "a::b", py "c") ≠ (py "a", py "b::c")
  ∧ py "a::b" ++ py "::" ++ py "c" = raw
  ∧ py "a" ++ py "::" ++ py "b::c" = raw
  ∧ ∃ key,
      state_key (py "a::b") (py "c") = Some key
      ∧ state_key (py "a") (py "b::c") = Some key
      ∧ ∀ (g : dict) ss t,
          load_session_state (JObj (write_session_state g key ss t)) key
          = Some ss.
Proof.
  cbn zeta. split; [discriminate|].
  split; [reflexivity|]. split; [reflexivity|].
  exists (sha256_hexdigest (py "a::b::c")).
  split; [reflexivity|]. split; [reflexivity|].
  intros g ss t. apply load_after_write.
Qed.

(** ** Truncation *)

Lemma len_take_le {A} (s : list A) (n : Z) :
  0 ≤ n → n < len s → len (take (Z.to_nat n) s) = n.
Proof.
  unfold len. intros ? ?. rewrite length_take. lia.
Qed.

(** C7, as the code has it. For a limit [L >= 0] and a text [T] that is
    within the limit or can be encoded as UTF-8, [truncate_text] returns a
    text of length at most [L]. Within the limit the text is returned as
    it is, marked [truncated: False]. Beyond it the first [L] characters
    are returned and the metadata carries [truncated: True], the original
    and kept lengths, and under ["sha256"] the digest of the UTF-8 encoding
    of the whole of [T]. The result is a function of [T] and [L], so it is
    the same at every call. *)
Theorem truncate_text_bounded (T : pystr) (L : Z) :
  0 ≤ L →
  len T ≤ L ∨ is_Some (utf8_encode T) →
  ∃ text meta,
    truncate_text (Some T) L = Some (text, meta)
    ∧ len text ≤ L
    ∧ (if len T <=? L
       then text = T ∧ meta !! py "truncated" = Some (JBool false)
       else text = take (Z.to_nat L) T
            ∧ meta !! py "truncated" = Some (JBool true)
            ∧ meta !! py "orig_len" = Some (JInt (len T))
            ∧ meta !! py "kept_len" = Some (JInt L)
            ∧ meta !! py "sha256"
              = (λ data, JStr (sha256_hexdigest data)) <$> utf8_encode T).
Proof.
  intros HL Hcase. unfold truncate_text.
  destruct (Z.leb_spec (len T) L) as [Hle|Hgt].
  - eexists _, _. split; [reflexivity|]. split; [lia|]. split; [done|].
    by rewrite lookup_insert_eq.
  - destruct Hcase as [?|[data Hdata]]; [lia|]. rewrite Hdata.
    assert (slice_to T L = take (Z.to_nat L) T) as Hs.
    { unfold slice_to. destruct (Z.ltb_spec L 0); [lia|done]. }
    rewrite Hs, (len_take_le T L) by lia.
    eexists _, _. split; [reflexivity|].
    split; [rewrite len_take_le; lia|]. split; [done|].
    split; [by rewrite lookup_insert_eq|].
    split; [by rewrite lookup_insert_ne, lookup_insert_eq|].
    split; [by rewrite 2!lookup_insert_ne, lookup_insert_eq|].
    by rewrite 3!lookup_insert_ne, lookup_insert_eq.
Qed.

(** ** Text extraction *)

Lemma text_part_item (x : json) (rest : list json) (texts : list pystr) :
  text_member_ok x = true →
  as_strs rest = Some texts →
  as_strs (List.filter truthy (text_part x) ++ rest)
  = Some (List.filter nonempty (option_list (item_text x)) ++ texts).
Proof.
  intros Hx Hrest. revert Hx.
  destruct x as [| | | |s| |d]; cbn [text_part item_text text_member_ok];
    intros Hx; try exact Hrest.
  - destruct s as [|c s]; cbn; [exact Hrest|]. by rewrite Hrest.
  - revert Hx. unfold get_or.
    destruct (eq_str (get d "type") "text"); [|intros _; exact Hrest].
    destruct (d !! py "text") as [v|]; cbn [default]; [|intros _; exact Hrest].
    destruct v as [| | | |s| |]; unfold id; cbn [List.filter app option_list];
      try (intros ->%negb_true_iff; exact Hrest).
    intros _. destruct s as [|c s]; cbn; [exact Hrest|]. by rewrite Hrest.
Qed.

Lemma as_strs_filter_truthy (l : list json) :
  forallb text_member_ok l = true →
  as_strs (List.filter truthy (flat_map text_part l))
  = Some (List.filter nonempty (omap item_text l)).
Proof.
  induction l as [|x l IH]; [done|].
  cbn [forallb flat_map]. intros [Hx Hl]%andb_prop.
  rewrite List.filter_app, (text_part_item x _ _ Hx (IH Hl)).
  f_equal. cbn [omap list_omap]. by destruct (item_text x) as [[|]|].
Qed.

(** C8, as the code has it. A plain string is returned as it is. For a
    list, the items that count are the fragments typed ["text"] and the
    bare strings; their texts are taken in order, the empty ones are
    dropped, and the rest is joined by line feeds; other items are
    ignored. Any other shape gives the empty string. This holds when every
    ["text"] member that is present and truthy is a string. *)
Theorem extract_text_shapes (content : json) :
  content_ok content = true →
  extract_text content = Some (extracted content).
Proof.
  intros Hok. destruct content as [| | | |s|l|d]; try done.
  cbn [extract_text extracted content_ok] in *.
  unfold join_values. by rewrite (as_strs_filter_truthy l Hok).
Qed.

(** ** Turn assembly *)

Lemma reply_not_tool_result (m : dict) :
  is_reply m = true → is_tool_result m = false ∧ opens_turn m = false.
Proof.
  unfold is_reply, opens_turn, is_tool_result.
  intros Hr%bool_decide_eq_true. rewrite Hr.
  rewrite bool_decide_eq_false_2; [done|].
  by intros [=].
Qed.

Lemma step_tool_result (a : Assembly) (m : dict) :
  is_tool_result m = true →
  step a m =
    {| turns := turns a; current_user := current_user a;
       assistant_order := assistant_order a;
       assistant_latest := assistant_latest a;
       tool_results :=
         fold_left record_tool_result
           (iter_tool_results (get_content (JObj m))) (tool_results a) |}.
Proof. unfold step. by intros ->. Qed.

Lemma step_opens (a : Assembly) (m : dict) :
  opens_turn m = true →
  step a m =
    {| turns := turns (flush_turn a); current_user := Some m;
       assistant_order := []; assistant_latest := ∅; tool_results := ∅ |}.
Proof.
  unfold opens_turn, step. intros [Hu Ht]%andb_prop.
  apply negb_true_iff in Ht. by rewrite Ht, Hu.
Qed.

Lemma step_reply (a : Assembly) (m : dict) :
  is_reply m = true →
  turns (step a m) = turns a
  ∧ current_user (step a m) = current_user a
  ∧ (is_Some (current_user a) → size (assistant_latest (step a m)) ≠ 0%nat).
Proof.
  intros Hr. destruct (reply_not_tool_result m Hr) as [Ht Ho].
  unfold step. rewrite Ht. unfold is_reply in Hr.
  apply bool_decide_eq_true in Hr. rewrite Hr.
  rewrite bool_decide_eq_false_2 by (by intros [=]).
  rewrite bool_decide_eq_true_2 by done.
  destruct (current_user a) as [u|] eqn:Eu; cbn.
  - split; [done|]. split; [done|]. intros _.
    rewrite map_size_ne_0_lookup. eexists _, _. apply lookup_insert_eq.
  - split; [done|]. split; [done|]. by intros [? [=]].
Qed.

Lemma step_silent (a : Assembly) (m : dict) :
  opens_turn m = false → is_reply m = false →
  turns (step a m) = turns a
  ∧ current_user (step a m) = current_user a
  ∧ assistant_order (step a m) = assistant_order a
  ∧ assistant_latest (step a m) = assistant_latest a.
Proof.
  unfold opens_turn, is_reply, step. intros Ho Hr.
  destruct (is_tool_result m); [done|]. rewrite Hr.
  rewrite andb_true_r in Ho. by rewrite Ho.
Qed.

Lemma flush_turn_users (a : Assembly) :
  map user_msg (turns (flush_turn a))
  = map user_msg (turns a)
    ++ (if Nat.eqb (size (assistant_latest a)) 0 then []
        else option_list (current_user a)).
Proof.
  unfold flush_turn. destruct (current_user a) as [u|]; cbn.
  - destruct (Nat.eqb _ 0); cbn; [by rewrite app_nil_r|].
    by rewrite map_app.
  - destruct (Nat.eqb _ 0); by rewrite app_nil_r.
Qed.

Lemma flush_turn_idle (a : Assembly) :
  assistant_latest a = ∅ → flush_turn a = a.
Proof.
  unfold flush_turn. intros ->. by destruct (current_user a).
Qed.

(** The user messages of the turns produced from state [a] on: those
    already closed, the open one, and the openers still to come, as long as
    each of them gets a reply. *)
Lemma fold_step_users (l : list dict) (a : Assembly) :
  all_replied l = true →
  (is_Some (current_user a) →
   size (assistant_latest a) ≠ 0%nat ∨ replied l = true) →
  map user_msg (turns (flush_turn (fold_left step l a)))
  = map user_msg (turns a) ++ option_list (current_user a)
    ++ List.filter opens_turn l.
Proof.
  revert a. induction l as [|m l IH]; intros a Hall Hopen.
  - cbn [fold_left List.filter]. rewrite flush_turn_users, app_nil_r.
    destruct (current_user a) as [u|]; [|by destruct (Nat.eqb _ 0)].
    destruct (Hopen (ltac:(eauto))) as [Hsz|]; [|done].
    by apply Nat.eqb_neq in Hsz as ->.
  - cbn [fold_left List.filter all_replied replied] in *.
    apply andb_prop in Hall as [Hm Hall].
    destruct (opens_turn m) eqn:Eo.
    + rewrite (IH _ Hall); rewrite (step_opens a m Eo); cbn.
      * rewrite flush_turn_users, <-app_assoc. f_equal.
        destruct (current_user a) as [u|]; [|by destruct (Nat.eqb _ 0)].
        destruct (Hopen (ltac:(eauto))) as [Hsz|]; [|done].
        by apply Nat.eqb_neq in Hsz as ->.
      * auto.
    + destruct (is_reply m) eqn:Er.
      * destruct (step_reply a m Er) as (Ht & Hu & Hsz).
        rewrite (IH _ Hall); [by rewrite Ht, Hu|].
        rewrite Hu. auto.
      * destruct (step_silent a m Eo Er) as (Ht & Hu & _ & Hl).
        rewrite (IH _ Hall); [by rewrite Ht, Hu|].
        by rewrite Hu, Hl.
Qed.

Lemma fold_step_quiet (tail : list dict) (a : Assembly) :
  forallb quiet tail = true →
  turns (fold_left step tail a) = turns a
  ∧ assistant_latest (fold_left step tail a) = assistant_latest a.
Proof.
  revert a. induction tail as [|m tail IH]; intros a Hq; [done|].
  cbn [forallb fold_left] in *. apply andb_prop in Hq as [Hm Hq].
  unfold quiet in Hm. apply andb_prop in Hm as [Ho Hr].
  apply negb_true_iff in Ho, Hr.
  destruct (step_silent a m Ho Hr) as (Ht & _ & _ & Hl).
  destruct (IH (step a m) Hq) as [-> ->]. done.
Qed.

Lemma build_turns_dangling (msgs tail : list dict) (u : dict) :
  opens_turn u = true → forallb quiet tail = true →
  build_turns (msgs ++ u :: tail) = build_turns msgs.
Proof.
  intros Hu Hq. unfold build_turns.
  rewrite fold_left_app. cbn [fold_left].
  destruct (fold_step_quiet tail (step (fold_left step msgs start) u) Hq)
    as [Ht Hl].
  rewrite flush_turn_idle, Ht; by rewrite ?Hl, step_opens.
Qed.

Lemma flush_turn_tidy (a : Assembly) : tidy a → tidy (flush_turn a).
Proof.
  intros [Hord Hturns]. unfold flush_turn.
  destruct (current_user a) as [u|]; [|done].
  destruct (Nat.eqb_spec (size (assistant_latest a)) 0) as [|Hsz]; [done|].
  split; [done|]. cbn. apply Forall_app. split; [done|].
  apply Forall_singleton. cbn.
  apply map_size_ne_0_lookup in Hsz as [mid [m Hm]].
  intros Hnil.
  assert (m ∈ omap (λ mid, assistant_latest a !! mid) (assistant_order a))
    as Hin by (apply list_elem_of_omap; eauto).
  rewrite Hnil in Hin. by apply not_elem_of_nil in Hin.
Qed.

Lemma step_tidy (a : Assembly) (m : dict) : tidy a → tidy (step a m).
Proof.
  intros Ha. unfold step.
  destruct (is_tool_result m); [done|].
  case_bool_decide.
  { split; cbn; [|by apply flush_turn_tidy].
    intros mid. rewrite lookup_empty. by intros [? [=]]. }
  case_bool_decide; [|done].
  destruct (current_user a); [|done].
  destruct Ha as [Hord Hturns]. split; [|done]. cbn.
  set (mid := default _ (get_message_id m)).
  intros mid'. destruct (decide (mid = mid')) as [<-|Hne].
  - intros _. destruct (assistant_latest a !! mid) eqn:E.
    + apply Hord. eauto.
    + apply elem_of_app. right. by apply list_elem_of_singleton.
  - rewrite lookup_insert_ne by done. intros Hin%Hord.
    destruct (assistant_latest a !! mid); [done|].
    apply elem_of_app. by left.
Qed.

Lemma build_turns_have_replies (msgs : list dict) :
  Forall (λ t, assistant_msgs t ≠ []) (build_turns msgs).
Proof.
  unfold build_turns.
  assert (∀ a, tidy a → tidy (fold_left step msgs a)) as Hfold.
  { induction msgs as [|m msgs IH]; intros a Ha; [done|].
    cbn. by apply IH, step_tidy. }
  apply flush_turn_tidy, Hfold. split; [|done].
  intros mid. cbn. rewrite lookup_empty. by intros [? [=]].
Qed.

(** C1. When every user message that is not a tool result is followed by
    an assistant message before the next such user message or the end of
    the list, [build_turns] returns one turn per such user message, in
    their order, so exactly as many turns as there are such messages, and
    each turn holds at least one assistant message. A further user message
    [u] at the end, followed by no assistant message, adds no turn. *)
Theorem build_turns_one_per_user (msgs tail : list dict) (u : dict) :
  all_replied msgs = true →
  opens_turn u = true → forallb quiet tail = true →
  map user_msg (build_turns msgs) = List.filter opens_turn msgs
  ∧ length (build_turns msgs) = length (List.filter opens_turn msgs)
  ∧ Forall (λ t, assistant_msgs t ≠ []) (build_turns msgs)
  ∧ build_turns (msgs ++ u :: tail) = build_turns msgs.
Proof.
  intros Hall Hu Hq.
  assert (map user_msg (build_turns msgs) = List.filter opens_turn msgs) as E.
  { unfold build_turns. rewrite fold_step_users; [done..|]. by intros [? [=]]. }
  split; [done|]. split; [by rewrite <-E, length_map|].
  split; [apply build_turns_have_replies|by apply build_turns_dangling].
Qed.

(** ** Tool results *)

Lemma record_tool_result_write (m : dict) (tr : json) :
  record_tool_result m tr
  = match tool_write tr with
    | Some (k, v) => <[k := v]> m
    | None => m
    end.
Proof.
  destruct tr; try done. cbn.
  by destruct (truthy (get d "tool_use_id")).
Qed.

Lemma fold_record_lookup (frs : list json) (m : dict) (k : pystr) :
  fold_left record_tool_result frs m !! k
  = match last_write k frs with
    | Some v => Some v
    | None => m !! k
    end.
Proof.
  revert m. induction frs as [|tr frs IH]; intros m; [done|].
  cbn [fold_left last_write]. rewrite IH.
  destruct (last_write k frs); [done|].
  rewrite record_tool_result_write.
  destruct (tool_write tr) as [[k' v]|]; [|done].
  case_bool_decide; simplify_eq.
  - by rewrite lookup_insert_eq.
  - by rewrite lookup_insert_ne.
Qed.

Lemma fold_record_twice (frs : list json) (m : dict) :
  fold_left record_tool_result frs (fold_left record_tool_result frs m)
  = fold_left record_tool_result frs m.
Proof.
  apply map_eq. intros k. rewrite !fold_record_lookup.
  by destruct (last_write k frs).
Qed.

Lemma fold_record_repeat (tr : json) (n : nat) (m : dict) :
  fold_left record_tool_result (repeat tr (S n)) m = record_tool_result m tr.
Proof.
  revert m. induction n as [|n IH]; intros m; [done|].
  change (repeat tr (S (S n))) with (tr :: repeat tr (S n)).
  cbn [fold_left]. rewrite IH. apply (fold_record_twice [tr]).
Qed.

Lemma step_tool_result_twice (a : Assembly) (msg : dict) :
  is_tool_result msg = true → step (step a msg) msg = step a msg.
Proof.
  intros Ht. rewrite !(step_tool_result _ _ Ht). cbn.
  by rewrite fold_record_twice.
Qed.

Lemma fold_step_repeat (msg : dict) (n : nat) (a : Assembly) :
  is_tool_result msg = true →
  fold_left step (repeat msg (S n)) a = step a msg.
Proof.
  intros Ht. revert a. induction n as [|n IH]; intros a; [done|].
  change (repeat msg (S (S n))) with (msg :: repeat msg (S n)).
  cbn [fold_left]. rewrite IH. by apply step_tool_result_twice.
Qed.

(** C9. A tool-result message changes nothing but the id-to-result map: it
    closes no turn and opens none. Afterwards a key holds the content of
    the last fragment of the message written under it, and the keys the
    message does not write keep their value. Delivering the message again,
    any number of times in a row, leaves the state, and so the turns built
    from any list around it, as one delivery does; the same holds for one
    fragment recorded several times. *)
Theorem tool_result_redelivery (msg : dict) (a : Assembly) (n : nat)
    (pre post : list dict) :
  is_tool_result msg = true →
  let frs := iter_tool_results (get_content (JObj msg)) in
  (turns (step a msg) = turns a
   ∧ current_user (step a msg) = current_user a
   ∧ assistant_order (step a msg) = assistant_order a
   ∧ assistant_latest (step a msg) = assistant_latest a)
  ∧ (∀ k, tool_results (step a msg) !! k
          = match last_write k frs with
            | Some v => Some v
            | None => tool_results a !! k
            end)
  ∧ (∀ (m : dict) tr,
       fold_left record_tool_result (repeat tr (S n)) m
       = record_tool_result m tr)
  ∧ fold_left step (repeat msg (S n)) a = step a msg
  ∧ build_turns (pre ++ repeat msg (S n) ++ post)
    = build_turns (pre ++ msg :: post).
Proof.
  intros Ht frs. split; [by rewrite (step_tool_result _ _ Ht)|].
  split.
  { intros k. rewrite (step_tool_result _ _ Ht). apply fold_record_lookup. }
  split.
  { intros m tr. apply fold_record_repeat. }
  split; [by apply fold_step_repeat|].
  unfold build_turns. rewrite !fold_left_app.
  by rewrite fold_step_repeat.
Qed.

(** ** Incremental reader *)

(** Wherever [exists()] answers, [read_new_jsonl] returns, with an offset
    that is not below the one it was given and the turn count it was
    given. *)
Lemma read_new_jsonl_returns (f : FileState) (ss : SessionState) :
  f ≠ Inaccessible →
  ∃ msgs ss', read_new_jsonl f ss = Some (msgs, ss')
              ∧ offset ss ≤ offset ss'
              ∧ turn_count ss' = turn_count ss.
Proof.
  intros Hf. destruct f as [| | |d]; try done;
    try (eexists _, _; (split; [reflexivity|]); (split; [lia|done])).
  cbn. destruct (Z.ltb_spec (offset ss) 0).
  { eexists _, _. split; [reflexivity|]. split; [lia|done]. }
  destruct (drop _ d); eexists _, _; (split; [reflexivity|]); cbn;
    unfold len; (split; [lia|done]).
Qed.

Lemma read_new_jsonl_raises (f : FileState) (ss : SessionState) :
  read_new_jsonl f ss = None → f = Inaccessible.
Proof.
  intros Hr. destruct f as [| | |d]; try done.
  destruct (read_new_jsonl_returns (Contents d) ss) as (? & ? & E & _);
    [done|congruence].
Qed.

Lemma read_new_jsonl_offset_le (f : FileState) (ss ss' : SessionState)
    (msgs : list json) :
  read_new_jsonl f ss = Some (msgs, ss') → offset ss ≤ offset ss'.
Proof.
  intros Hr. destruct (read_new_jsonl_returns f ss) as (? & ? & E & Ho & _).
  - intros ->. discriminate Hr.
  - rewrite Hr in E. by injection E as <- <-.
Qed.

Lemma read_new_jsonl_turn_count (f : FileState) (ss ss' : SessionState)
    (msgs : list json) :
  read_new_jsonl f ss = Some (msgs, ss') → turn_count ss' = turn_count ss.
Proof.
  intros Hr. destruct (read_new_jsonl_returns f ss) as (? & ? & E & _ & Ht).
  - intros ->. discriminate Hr.
  - rewrite Hr in E. by injection E as <- <-.
Qed.

(** C6, where [exists()] raises. For a path whose [stat] fails with an
    error that [exists()] does not take for absence (a directory of the
    path that may not be searched, a name that is too long), the
    [exists()] of line 257 raises, and it stands before the [try]:
    [read_new_jsonl] returns no state, whatever state it was given. On
    every other path the claim holds: a state is returned whose offset is
    not below the one given and whose turn count is the one given; a
    missing file, a file that cannot be opened and a file that has shrunk
    to the stored offset or below give no message and the state
    unchanged. *)
Theorem read_new_jsonl_raises_where_exists_raises :
  (∀ ss, read_new_jsonl Inaccessible ss = None)
  ∧ (∀ f ss, f ≠ Inaccessible →
       ∃ msgs ss', read_new_jsonl f ss = Some (msgs, ss')
                   ∧ offset ss ≤ offset ss'
                   ∧ turn_count ss' = turn_count ss)
  ∧ (∀ ss, read_new_jsonl Missing ss = Some ([], ss))
  ∧ (∀ ss, read_new_jsonl Unreadable ss = Some ([], ss))
  ∧ (∀ ss data,
       read_new_jsonl (Contents (take (Z.to_nat (offset ss)) data)) ss
       = Some ([], ss)).
Proof.
  split; [done|]. split; [apply read_new_jsonl_returns|].
  split; [done|]. split; [done|]. intros ss data. cbn.
  destruct (offset ss <? 0); [done|].
  by rewrite drop_ge by (rewrite length_take; lia).
Qed.

Lemma split_lines_cons (s : pystr) : ∃ l ls, split_lines s = l :: ls.
Proof.
  induction s as [|c s (l & ls & E)]; cbn; [by eauto|].
  destruct (c =? LF)%N; [by eauto|]. rewrite E. eauto.
Qed.

Lemma all_but_last_cons {A} (x y : A) (l : list A) :
  all_but_last (x :: y :: l) = x :: all_but_last (y :: l).
Proof. unfold all_but_last. cbn. by rewrite Nat.sub_0_r. Qed.

Lemma all_but_last_app {A} (l1 l2 : list A) :
  l2 ≠ [] → all_but_last (l1 ++ l2) = l1 ++ all_but_last l2.
Proof.
  intros Hne. induction l1 as [|x l1 IH]; [done|].
  cbn [app]. destruct (l1 ++ l2) as [|y r] eqn:E.
  - by apply app_eq_nil in E as [_ ?].
  - rewrite all_but_last_cons. by rewrite IH.
Qed.

Lemma last_item_app (l1 l2 : list pystr) :
  l2 ≠ [] → last_item (l1 ++ l2) = last_item l2.
Proof.
  intros Hne. unfold last_item. destruct l2 as [|x l2] using rev_ind; [done|].
  by rewrite app_assoc, !List.last_last.
Qed.

(** Splitting a text that arrives in two parts: the complete lines of the
    first part, then the lines of its unfinished tail followed by the
    second part. *)
Lemma split_lines_app (s t : pystr) :
  split_lines (s ++ t)
  = all_but_last (split_lines s)
    ++ split_lines (last_item (split_lines s) ++ t).
Proof.
  induction s as [|c s IH]; [done|].
  cbn [app split_lines]. destruct (c =? LF)%N eqn:Ec.
  - rewrite IH. destruct (split_lines_cons s) as (l & ls & ->).
    by rewrite all_but_last_cons.
  - rewrite IH. destruct (split_lines_cons s) as (l & ls & ->).
    destruct ls as [|l' ls].
    + cbn. rewrite Ec.
      by destruct (split_lines_cons (l ++ t)) as (? & ? & ->).
    + by rewrite !all_but_last_cons.
Qed.

Lemma split_lines_nonempty (s : pystr) : split_lines s ≠ [].
Proof. by destruct (split_lines_cons s) as (? & ? & ->). Qed.

(** A read of a file whose first [len old] octets were consumed before. *)
Lemma read_new_jsonl_chunk (old chunk : bytes) (buf : pystr) (tc : Z) :
  let s0 := {| offset := len old; buffer := buf; turn_count := tc |} in
  read_new_jsonl (Contents (old ++ chunk)) s0
  = Some match chunk with
         | [] => ([], s0)
         | _ =>
             let lines := split_lines (buf ++ utf8_decode chunk) in
             (parse_lines (all_but_last lines),
              {| offset := len (old ++ chunk); buffer := last_item lines;
                 turn_count := tc |})
         end.
Proof.
  cbn zeta. unfold read_new_jsonl.
  cbn [file_exists offset buffer turn_count].
  assert ((len old <? 0) = false) as -> by (apply Z.ltb_ge; unfold len; lia).
  assert (drop (Z.to_nat (len old)) (old ++ chunk) = chunk) as ->
    by (unfold len; by rewrite Nat2Z.id, drop_app_length).
  destruct chunk as [|b chunk]; [done|].
  replace (len old + len (b :: chunk)) with (len (old ++ b :: chunk));
    [done|]. unfold len. rewrite length_app. lia.
Qed.

(** *** Cuts that do not fall inside a character *)

Lemma ascii_not_cont (b : N) : (b <? 128)%N = true → is_cont b = false.
Proof.
  unfold is_cont, in_range. intros ?%N.ltb_lt.
  apply andb_false_iff. left. apply N.leb_gt. lia.
Qed.

Lemma ascii_not_second (b0 b : N) :
  (b <? 128)%N = true → second_ok b0 b = false.
Proof.
  intros Hb. unfold second_ok. rewrite (ascii_not_cont b Hb).
  apply N.ltb_lt in Hb. unfold in_range.
  repeat case_match; try done;
    apply andb_false_iff; left; apply N.leb_gt; lia.
Qed.

(** An octet below 128 is a character of its own wherever it stands: the
    decoder never takes it into a longer sequence. *)
Lemma utf8_decode_ascii_bounded (n : nat) (xs : bytes) (b : N) (ys : bytes) :
  (length xs ≤ n)%nat → (b <? 128)%N = true →
  utf8_decode (xs ++ b :: ys) = utf8_decode xs ++ b :: utf8_decode ys.
Proof.
  intros Hlen Hb. revert xs Hlen.
  induction n as [|n IH]; intros xs Hlen.
  { destruct xs; [|cbn in Hlen; lia]. cbn. by rewrite Hb. }
  pose proof (ascii_not_cont b Hb) as Hc.
  assert (∀ b0, second_ok b0 b = false) as Hs
    by (intros; by apply ascii_not_second).
  assert (utf8_decode (b :: ys) = b :: utf8_decode ys) as Hhead.
  { cbn. by rewrite Hb. }
  assert (∀ l, (S (length l) ≤ length xs)%nat →
            utf8_decode (l ++ b :: ys)
            = utf8_decode l ++ b :: utf8_decode ys) as Hsuffix
    by (intros l ?; apply IH; lia).
  clear IH Hlen.
  destruct xs as [|b0 r0]; [exact Hhead|].
  cbn [List.app utf8_decode].
  repeat first
    [ progress cbn [List.app]
    | by rewrite ?Hc, ?Hs, ?Hhead
    | match goal with
      | |- context [utf8_decode (?l ++ b :: ys)] =>
          rewrite (Hsuffix l) by (cbn; lia); reflexivity
      | |- context [utf8_decode (?x :: ?l ++ b :: ys)] =>
          change (x :: l ++ b :: ys) with ((x :: l) ++ b :: ys);
          rewrite (Hsuffix (x :: l)) by (cbn; lia); reflexivity
      | |- context [if ?c then _ else _] => destruct c
      | |- context [match ?r with [] => _ | _ :: _ => _ end] =>
          is_var r; destruct r
      end ].
Qed.

Lemma utf8_decode_ascii (xs : bytes) (b : N) (ys : bytes) :
  (b <? 128)%N = true →
  utf8_decode (xs ++ b :: ys) = utf8_decode xs ++ b :: utf8_decode ys.
Proof. by apply (utf8_decode_ascii_bounded (length xs)). Qed.

(** A cut right after a line feed splits the decoded text as it splits
    the bytes. *)
Lemma utf8_decode_after_line (xs ys : bytes) :
  utf8_decode ((xs ++ [LF]) ++ ys)
  = utf8_decode (xs ++ [LF]) ++ utf8_decode ys.
Proof.
  rewrite <-app_assoc. cbn [List.app].
  rewrite !utf8_decode_ascii by done. cbn [utf8_decode].
  by rewrite <-app_assoc.
Qed.

(** The reader resumes: when the decoded text of the old and the new
    bytes is the text of the whole, as it is whenever the cut does not fall
    inside a character, two reads return the messages and reach the state
    of one read of the whole. *)
Lemma read_new_jsonl_resumes (old pre new : bytes) (buf : pystr) (tc : Z) :
  utf8_decode (pre ++ new) = utf8_decode pre ++ utf8_decode new →
  let s0 := {| offset := len old; buffer := buf; turn_count := tc |} in
  ∃ m1 s1 m2 s2,
    read_new_jsonl (Contents (old ++ pre)) s0 = Some (m1, s1)
    ∧ read_new_jsonl (Contents (old ++ pre ++ new)) s1 = Some (m2, s2)
    ∧ read_new_jsonl (Contents (old ++ pre ++ new)) s0
      = Some (m1 ++ m2, s2).
Proof.
  intros Hdec. cbn zeta.
  pose proof (read_new_jsonl_chunk old pre buf tc) as E1.
  pose proof (read_new_jsonl_chunk old (pre ++ new) buf tc) as E3.
  cbn zeta in E1, E3. destruct pre as [|b pre].
  { cbn [List.app] in *.
    destruct (read_new_jsonl (Contents (old ++ new)) _) as [[m2 s2]|] eqn:E;
      [|discriminate E3].
    eexists [], _, m2, s2. split; [exact E1|]. by split. }
  pose proof (read_new_jsonl_chunk (old ++ b :: pre) new
                (last_item (split_lines (buf ++ utf8_decode (b :: pre)))) tc)
    as E2.
  cbn zeta in E2. rewrite <-app_assoc in E2. destruct new as [|b' new].
  { eexists _, _, _, _. split; [exact E1|]. split; [exact E2|].
    rewrite E3. cbn [List.app]. by rewrite !app_nil_r. }
  eexists _, _, _, _. split; [exact E1|]. split; [exact E2|].
  rewrite E3. f_equal. cbn [List.app]. change (b :: pre ++ b' :: new)
    with ((b :: pre) ++ b' :: new).
  rewrite Hdec, (app_assoc buf), split_lines_app.
  rewrite all_but_last_app, last_item_app by apply split_lines_nonempty.
  unfold parse_lines. by rewrite omap_app, (app_assoc old).
Qed.

(** In particular the reader resumes after every complete line: bytes
    appended to a transcript that ended in a line feed are read as if the
    file had been read at once. *)
Lemma read_new_jsonl_resumes_after_line (old pre new : bytes) (buf : pystr)
    (tc : Z) :
  let s0 := {| offset := len old; buffer := buf; turn_count := tc |} in
  ∃ m1 s1 m2 s2,
    read_new_jsonl (Contents (old ++ pre ++ [LF])) s0 = Some (m1, s1)
    ∧ read_new_jsonl (Contents (old ++ (pre ++ [LF]) ++ new)) s1
      = Some (m2, s2)
    ∧ read_new_jsonl (Contents (old ++ (pre ++ [LF]) ++ new)) s0
      = Some (m1 ++ m2, s2).
Proof.
  apply (read_new_jsonl_resumes old (pre ++ [LF]) new buf tc).
  apply utf8_decode_after_line.
Qed.

(** C2, at a cut inside a character. The transcript holds the one line
    [{"a":"é"}]; the first read ends after the first octet of [é]. That
    read returns nothing and keeps the text up to a replacement character;
    the second read hands [json.loads] the line with two replacement
    characters where [é] stood, while one read of the whole file hands it
    the line as written. *)
Theorem read_new_jsonl_cut_in_character :
  let pre : bytes := [123; 34; 97; 34; 58; 34; 195]%N in
  let new : bytes := [169; 34; 125; 10]%N in
  let s0 := {| offset := 0; buffer := []; turn_count := 0 |} in
  let written := quoted "{'a':'" ++ [233%N] ++ quoted "'}" in
  let damaged :=
    quoted "{'a':'" ++ [REPLACEMENT; REPLACEMENT] ++ quoted "'}" in
  let s1 := {| offset := 7;
               buffer := quoted "{'a':'" ++ [REPLACEMENT];
               turn_count := 0 |} in
  utf8_encode (written ++ [LF]) = Some (pre ++ new)
  ∧ read_new_jsonl (Contents pre) s0 = Some ([], s1)
  ∧ read_new_jsonl (Contents (pre ++ new)) s1
    = Some (option_list (json_loads damaged),
            {| offset := 11; buffer := []; turn_count := 0 |})
  ∧ read_new_jsonl (Contents (pre ++ new)) s0
    = Some (option_list (json_loads written),
            {| offset := 11; buffer := []; turn_count := 0 |})
  ∧ damaged ≠ written.
Proof.
  cbn zeta. split; [reflexivity|]. split; [reflexivity|].
  split; [|split; [|discriminate]].
  - vm_compute. reflexivity.
  - vm_compute. reflexivity.
Qed.

(** ** The driver *)

Lemma numbered_calls_cons (p : Provider) (sid : json) (path : pystr)
    (count : Z) (t : Turn) (ts : list Turn) :
  numbered_calls p sid path count (t :: ts)
  = EmitTurn sid (count + 1) t path (emit_turn_result p sid (count + 1) t path)
    :: numbered_calls p sid path (count + 1) ts.
Proof.
  unfold numbered_calls. cbn [imap]. f_equal.
  - by replace (count + Z.of_nat 0 + 1) with (count + 1) by lia.
  - apply imap_ext. intros i t' _. cbn.
    by replace (count + Z.of_nat (S i) + 1)
      with (count + 1 + Z.of_nat i + 1) by lia.
Qed.

(** The loop makes the numbered calls up to the first one that escapes,
    and counts them all when none does. *)
Lemma dispatch_numbered (p : Provider) (sid : json) (path : pystr)
    (count emitted : Z) (ts : list Turn) :
  dispatch p sid path count emitted ts
  = if all_caught (numbered_calls p sid path (count + emitted) ts)
    then (Some (emitted + len ts),
          numbered_calls p sid path (count + emitted) ts)
    else (None, until_escape (numbered_calls p sid path (count + emitted) ts)).
Proof.
  revert emitted. induction ts as [|t ts IH]; intros emitted.
  - cbn. do 2 f_equal. unfold len. cbn. lia.
  - cbn [dispatch]. rewrite numbered_calls_cons, IH.
    cbn [all_caught forallb until_escape escaped_call].
    replace (count + (emitted + 1)) with (count + emitted + 1) by lia.
    destruct (escapes (emit_turn_result p sid _ t path)); [done|].
    cbn [negb andb]. fold (all_caught (numbered_calls p sid path
                                         (count + emitted + 1) ts)).
    destruct (all_caught _); [|done].
    do 2 f_equal. unfold len. cbn [length]. lia.
Qed.

Lemma turn_numbers_app (l1 l2 : list event) :
  turn_numbers (l1 ++ l2) = turn_numbers l1 ++ turn_numbers l2.
Proof. apply omap_app. Qed.

Lemma turn_numbers_numbered (p : Provider) (sid : json) (path : pystr)
    (count : Z) (ts : list Turn) :
  turn_numbers (numbered_calls p sid path count ts)
  = map (fun i => count + Z.of_nat i) (seq 1 (length ts)).
Proof.
  revert count. induction ts as [|t ts IH]; intros count; [done|].
  rewrite numbered_calls_cons.
  change (EmitTurn ?a ?b ?c ?d ?e :: ?l) with ([EmitTurn a b c d e] ++ l).
  rewrite turn_numbers_app, IH. cbn [length seq].
  rewrite <-(seq_shift (length ts) 1).
  cbn [turn_numbers omap list_omap List.app map]. rewrite (map_map S).
  f_equal. apply map_ext. intros i. lia.
Qed.

Lemma numbered_calls_bounds (p : Provider) (sid : json) (path : pystr)
    (count : Z) (ts : list Turn) (n : Z) :
  n ∈ turn_numbers (numbered_calls p sid path count ts) →
  count < n ≤ count + len ts.
Proof.
  rewrite turn_numbers_numbered. intros (i & -> & Hi)%list_elem_of_fmap.
  apply list_elem_of_In, in_seq in Hi. unfold len. lia.
Qed.

Lemma until_escape_numbers (calls : list event) (n : Z) :
  n ∈ turn_numbers (until_escape calls) → n ∈ turn_numbers calls.
Proof.
  induction calls as [|e calls IH]; [done|]. cbn [until_escape].
  destruct (escaped_call e).
  - change (e :: calls) with ([e] ++ calls). rewrite turn_numbers_app.
    intros Hn. apply elem_of_app. by left.
  - change (e :: ?l) with ([e] ++ l). rewrite !turn_numbers_app.
    intros [Hn|Hn]%elem_of_app; apply elem_of_app; [by left|right; auto].
Qed.

(** What the body of the [try] does once the lock file is open, the
    stored state loads and the new records are dictionaries. *)
Lemma process_run (w : World) (p : Provider) (sid : json) (path : pystr)
    (g : dict) (key : pystr) (ss0 ss : SessionState) (msgs : list json)
    (ms : list dict) :
  lock_opens w = true →
  load_state (state_file w) = JObj g →
  state_key (py_str sid) path = Some key →
  load_session_state (JObj g) key = Some ss0 →
  read_new_jsonl (files w path) ss0 = Some (msgs, ss) →
  as_dicts msgs = Some ms →
  let ts := build_turns ms in
  let calls := numbered_calls p sid path (turn_count ss0) ts in
  process w p sid path
  = if all_caught calls
    then (Some (write_session_state g key
                  {| offset := offset ss; buffer := buffer ss;
                     turn_count := turn_count ss0 + len ts |} (now w)),
          calls ++ (if len ts =? 0 then [] else [Flush (flush_result p)]),
          negb (len ts =? 0) && escapes (flush_result p))
    else (None, until_escape calls, true).
Proof.
  intros Hlock Hst Hkey Hss0 Hread Hms ts calls.
  assert (turn_count ss = turn_count ss0) as Htc
    by apply (read_new_jsonl_turn_count _ _ _ _ Hread).
  assert (ss = {| offset := offset ss; buffer := buffer ss;
                  turn_count := turn_count ss0 + 0 |}) as Hsame.
  { destruct ss; cbn in *. f_equal. lia. }
  unfold process. rewrite Hlock, Hst, Hkey, Hss0, Hread. cbn [negb].
  destruct msgs as [|m msgs].
  { injection Hms as <-. subst calls ts. cbn.
    change (len []) with 0. cbn. by rewrite Hsame at 1. }
  rewrite Hms. subst calls. fold ts. destruct ts as [|t ts'] eqn:Ets.
  { cbn. change (len []) with 0. cbn. by rewrite Hsame at 1. }
  rewrite dispatch_numbered, Htc, Z.add_0_r, Z.add_0_l.
  destruct (all_caught _); [|done].
  by assert ((len (t :: ts') =? 0) = false) as ->
    by (apply Z.eqb_neq; unfold len; cbn; lia).
Qed.

(** What [main] does once it gets to assemble turns, when every
    [emit_turn] returns or raises an [Exception]. *)
Lemma main_run (w : World) (p : Provider) (sid : json) (path : pystr)
    (g : dict) (key : pystr) (ss0 ss : SessionState) (msgs : list json)
    (ms : list dict) :
  reaches_assembly w p sid path g key ss0 ss msgs ms →
  all_caught (numbered_calls p sid path (turn_count ss0) (build_turns ms))
  = true →
  main w =
    {| status := if negb (len (build_turns ms) =? 0)
                    && escapes (flush_result p)
                    || escapes (shutdown_result p)
                 then None else Some 0;
       saved := Some (write_session_state g key
                        {| offset := offset ss; buffer := buffer ss;
                           turn_count := turn_count ss0
                                         + len (build_turns ms) |} (now w));
       trace := Constructed (env_provider w)
                :: numbered_calls p sid path (turn_count ss0) (build_turns ms)
                ++ (if len (build_turns ms) =? 0 then []
                    else [Flush (flush_result p)])
                ++ [Shutdown (shutdown_result p)] |}.
Proof.
  intros (Hen & Hp & Hx & Hsid & Hfile & Hlock & Hst & Hkey & Hss0 & Hread
          & Hms) Hcaught.
  pose proof (process_run w p sid path g key ss0 ss msgs ms Hlock Hst Hkey
                Hss0 Hread Hms) as Hproc.
  cbn zeta in Hproc. rewrite Hcaught in Hproc.
  unfold main. rewrite Hen, bool_decide_eq_true_2 by done. cbn [negb].
  destruct (env_provider w) as [|c name] eqn:Ename; [done|].
  rewrite Hp, Hx, Hsid, Hfile, Hproc. by rewrite <-app_assoc.
Qed.

(** And when an [emit_turn] raises what is not caught: the loop ends
    there, nothing is saved, and the exception leaves [main] after the
    [finally]. *)
Lemma main_run_escaped (w : World) (p : Provider) (sid : json)
    (path : pystr) (g : dict) (key : pystr) (ss0 ss : SessionState)
    (msgs : list json) (ms : list dict) :
  reaches_assembly w p sid path g key ss0 ss msgs ms →
  all_caught (numbered_calls p sid path (turn_count ss0) (build_turns ms))
  = false →
  main w =
    {| status := None;
       saved := None;
       trace := Constructed (env_provider w)
                :: until_escape (numbered_calls p sid path (turn_count ss0)
                                   (build_turns ms))
                ++ [Shutdown (shutdown_result p)] |}.
Proof.
  intros (Hen & Hp & Hx & Hsid & Hfile & Hlock & Hst & Hkey & Hss0 & Hread
          & Hms) Hcaught.
  pose proof (process_run w p sid path g key ss0 ss msgs ms Hlock Hst Hkey
                Hss0 Hread Hms) as Hproc.
  cbn zeta in Hproc. rewrite Hcaught in Hproc.
  unfold main. rewrite Hen, bool_decide_eq_true_2 by done. cbn [negb].
  destruct (env_provider w) as [|c name] eqn:Ename; [done|].
  by rewrite Hp, Hx, Hsid, Hfile, Hproc.
Qed.

(** C3, as the code has it. Let an invocation get as far as assembling
    turns: the sink is built, the payload names a session and an existing
    transcript, the lock file opens, the stored state loads, and the new
    records are dictionaries. Let every [emit_turn] call return or raise
    an [Exception]. With [K] the number of turns assembled, [main] calls
    [emit_turn] once per turn, in order, with the numbers stored count + 1
    up to stored count + [K], whichever of the calls raise, and hands
    [save_state] a dictionary whose entry for the session holds the turn
    count stored count + [K], the other entries being as loaded. Between
    construction and shutdown the sink sees nothing else but one [flush]
    when [K > 0]. *)
Theorem main_dispatches_in_order (w : World) (p : Provider) (sid : json)
    (path : pystr) (g : dict) (key : pystr) (ss0 ss : SessionState)
    (msgs : list json) (ms : list dict) :
  env_enabled w = py "true" →
  _create_provider w (env_provider w) = Some p →
  extract_session_and_transcript (read_hook_payload (stdin w))
  = Some (sid, Some path) →
  truthy sid = true →
  file_exists (files w path) = Some true →
  lock_opens w = true →
  load_state (state_file w) = JObj g →
  state_key (py_str sid) path = Some key →
  load_session_state (JObj g) key = Some ss0 →
  read_new_jsonl (files w path) ss0 = Some (msgs, ss) →
  as_dicts msgs = Some ms →
  let ts := build_turns ms in
  let K := len ts in
  all_caught (numbered_calls p sid path (turn_count ss0) ts) = true →
  trace (main w)
  = Constructed (env_provider w)
    :: numbered_calls p sid path (turn_count ss0) ts
    ++ (if K =? 0 then [] else [Flush (flush_result p)])
    ++ [Shutdown (shutdown_result p)]
  ∧ turn_numbers (trace (main w))
    = map (fun i => turn_count ss0 + Z.of_nat i) (seq 1 (length ts))
  ∧ (∃ g1, saved (main w) = Some g1
           ∧ g1 !! key
             = Some (JObj (<[py "offset" := JInt (offset ss)]>
                           (<[py "buffer" := JStr (buffer ss)]>
                            (<[py "turn_count" := JInt (turn_count ss0 + K)]>
                             (<[py "updated" := JStr (now w)]> ∅)))))
           ∧ (∀ k, k ≠ key → g1 !! k = g !! k)
           ∧ load_session_state (JObj g1) key
             = Some {| offset := offset ss; buffer := buffer ss;
                       turn_count := turn_count ss0 + K |})
  ∧ status (main w)
    = (if negb (K =? 0) && escapes (flush_result p)
          || escapes (shutdown_result p)
       then None else Some 0).
Proof.
  intros Hen Hp Hx Hsid Hfile Hlock Hst Hkey Hss0 Hread Hms ts K Hcaught.
  assert (reaches_assembly w p sid path g key ss0 ss msgs ms) as Hrun
    by done.
  rewrite (main_run _ _ _ _ _ _ _ _ _ _ Hrun Hcaught). cbn [trace saved status].
  fold ts K. split; [done|]. split; [|split; [|done]].
  - change (Constructed (env_provider w) :: ?l)
      with ([Constructed (env_provider w)] ++ l).
    rewrite !turn_numbers_app, turn_numbers_numbered.
    destruct (K =? 0); cbn [turn_numbers omap list_omap List.app];
      by rewrite app_nil_r.
  - eexists. split; [reflexivity|]. unfold write_session_state.
    split; [by rewrite lookup_insert_eq|].
    split; [intros k Hk; by rewrite lookup_insert_ne|].
    apply load_after_write.
Qed.






End Properties.

(** * Further properties *)

Section Further.
Context `{PyBuiltins}.

(** ** Session state *)

(** X1. What [write_session_state] stores under a key is what
    [load_session_state] reads back under it, and the entry of any other
    key is read as before. *)
Theorem session_state_round_trip (g : dict) (key key' : pystr)
    (ss : SessionState) (t : pystr) :
  key' ≠ key →
  load_session_state (JObj (write_session_state g key ss t)) key = Some ss
  ∧ load_session_state (JObj (write_session_state g key ss t)) key'
    = load_session_state (JObj g) key'.
Proof.
  intros Hne. split; [apply load_after_write|].
  unfold load_session_state, write_session_state.
  by rewrite lookup_insert_ne.
Qed.

(** ** Incremental reader, continued *)

Lemma drop_nil_length {A} (n : nat) (l : list A) :
  drop n l = [] → (length l ≤ n)%nat.
Proof. intros E. pose proof (length_drop l n) as Hl. rewrite E in Hl. cbn in Hl. lia. Qed.

(** X2. A read that starts at an offset inside the file, or at its end,
    leaves the offset at the size of the file. *)
Theorem read_new_jsonl_reaches_end (data : bytes) (ss : SessionState) :
  0 ≤ offset ss ≤ len data →
  ∃ msgs ss', read_new_jsonl (Contents data) ss = Some (msgs, ss')
              ∧ offset ss' = len data.
Proof.
  intros [Hlo Hhi]. unfold read_new_jsonl. cbn [file_exists].
  assert ((offset ss <? 0) = false) as -> by (by apply Z.ltb_ge).
  destruct (drop (Z.to_nat (offset ss)) data) as [|b chunk] eqn:Echunk;
    eexists _, _; (split; [reflexivity|]); cbn [offset].
  - apply drop_nil_length in Echunk. unfold len in *. lia.
  - rewrite <-Echunk. unfold len in *. rewrite length_drop. lia.
Qed.

Lemma last_item_no_lf (s : pystr) : LF ∉ last_item (split_lines s).
Proof.
  unfold last_item. induction s as [|c s IH]; [apply not_elem_of_nil|].
  cbn [split_lines]. destruct (N.eqb_spec c LF) as [->|Hc].
  - destruct (split_lines_cons s) as (l & ls & E). rewrite E in *.
    exact IH.
  - destruct (split_lines_cons s) as (l & ls & E). rewrite E in *.
    destruct ls as [|l' ls]; [|exact IH].
    cbn in *. apply not_elem_of_cons. split; [done|exact IH].
Qed.

(** X3. The buffer never holds a line feed: if the stored buffer has none,
    neither has the one [read_new_jsonl] returns, and it returns one
    wherever [exists()] answers. *)
Theorem read_new_jsonl_buffer_one_line (f : FileState) (ss : SessionState) :
  LF ∉ buffer ss → f ≠ Inaccessible →
  ∃ msgs ss', read_new_jsonl f ss = Some (msgs, ss') ∧ LF ∉ buffer ss'.
Proof.
  intros Hbuf Hf. destruct f as [| | |data]; try done;
    try (by eexists _, _).
  cbn. destruct (offset ss <? 0); [by eexists _, _|].
  destruct (drop _ data); [by eexists _, _|].
  eexists _, _. split; [reflexivity|]. cbn. apply last_item_no_lf.
Qed.

Lemma cp_not_lf (b0 b1 b2 b3 : N) :
  (in_range 194 223 b0 = true → LF ≠ cp2 b0 b1)
  ∧ (in_range 224 239 b0 = true → second_ok b0 b1 = true →
     LF ≠ cp3 b0 b1 b2)
  ∧ (in_range 240 244 b0 = true → second_ok b0 b1 = true →
     LF ≠ cp4 b0 b1 b2 b3).
Proof.
  unfold in_range, second_ok, is_cont, in_range, cp2, cp3, cp4, LF.
  repeat split; intros; repeat case_match;
    repeat match goal with
    | H : _ && _ = true |- _ => apply andb_prop in H as [? ?]
    | H : (_ <=? _)%N = true |- _ => apply N.leb_le in H
    | H : (_ =? _)%N = true |- _ => apply N.eqb_eq in H
    | H : (_ =? _)%N = false |- _ => apply N.eqb_neq in H
    end; lia.
Qed.

(** Decoding makes no line feed that was not among the octets. *)
Lemma utf8_decode_no_lf_bounded (n : nat) (bs : bytes) :
  (length bs ≤ n)%nat → LF ∉ bs → LF ∉ utf8_decode bs.
Proof.
  revert bs. induction n as [|n IH]; intros bs Hlen Hbs.
  { destruct bs; [|cbn in Hlen; lia]. cbn. apply not_elem_of_nil. }
  destruct bs as [|b0 r0]; [cbn; apply not_elem_of_nil|].
  apply not_elem_of_cons in Hbs as [Hb0 Hr0].
  cbn [utf8_decode].
  repeat first
    [ apply not_elem_of_nil
    | apply not_elem_of_cons; split;
        [ first [ done | by apply cp_not_lf ] | ]
    | match goal with
      | |- LF ∉ utf8_decode ?l =>
          apply IH;
            [ cbn in *; lia
            | repeat match goal with
                     | Hx : LF ∉ _ :: _ |- _ =>
                         apply not_elem_of_cons in Hx as [? ?]
                     end;
              repeat (apply not_elem_of_cons; split); done ]
      | |- context [if ?c then _ else _] => destruct c eqn:?
      | |- context [match ?r with [] => _ | _ :: _ => _ end] =>
          is_var r; destruct r
      end ].
Qed.

Lemma split_lines_one_line (s : pystr) : LF ∉ s → split_lines s = [s].
Proof.
  induction s as [|c s IH]; [done|].
  intros [Hc Hs]%not_elem_of_cons. cbn [split_lines].
  destruct (N.eqb_spec c LF) as [->|_]; [done|]. by rewrite IH.
Qed.

(** X4. Bytes that bring no line feed give no message: their text is
    added to the buffer, and the offset moves past them. *)
Theorem read_new_jsonl_holds_partial_line (old chunk : bytes) (buf : pystr)
    (tc : Z) :
  LF ∉ buf → LF ∉ chunk → chunk ≠ [] →
  read_new_jsonl (Contents (old ++ chunk))
    {| offset := len old; buffer := buf; turn_count := tc |}
  = Some ([], {| offset := len (old ++ chunk);
                 buffer := buf ++ utf8_decode chunk;
                 turn_count := tc |}).
Proof.
  intros Hbuf Hchunk Hne. rewrite read_new_jsonl_chunk.
  destruct chunk as [|b chunk]; [done|]. cbn zeta.
  rewrite split_lines_one_line; [done|].
  apply not_elem_of_app. split; [done|].
  by apply (utf8_decode_no_lf_bounded (length (b :: chunk))).
Qed.

(** ** Turn assembly, continued *)

Lemma flush_after_turns (p : list Turn) (a : Assembly) :
  flush_turn (after_turns p a) = after_turns p (flush_turn a).
Proof.
  destruct a as [ts [u|] order latest results]; [|done].
  unfold flush_turn, after_turns. cbn.
  destruct (Nat.eqb _ 0); [done|]. cbn. by rewrite app_assoc.
Qed.

Lemma step_after_turns (p : list Turn) (a : Assembly) (m : dict) :
  step (after_turns p a) m = after_turns p (step a m).
Proof.
  unfold step. destruct (is_tool_result m); [done|].
  case_bool_decide.
  { rewrite flush_after_turns. done. }
  case_bool_decide; [|done]. by destruct a as [ts [u|] order latest results].
Qed.

Lemma fold_after_turns (p : list Turn) (l : list dict) (a : Assembly) :
  fold_left step l (after_turns p a) = after_turns p (fold_left step l a).
Proof.
  revert a. induction l as [|m l IH]; intros a; [done|].
  cbn. by rewrite step_after_turns, IH.
Qed.

(** X5. The turns of a list are those of what precedes a user message
    that opens a turn, followed by those of the rest from that message
    on: nothing before the message reaches into its turn. *)
Theorem build_turns_app (l1 l2 : list dict) (u : dict) :
  opens_turn u = true →
  build_turns (l1 ++ u :: l2) = build_turns l1 ++ build_turns (u :: l2).
Proof.
  intros Hu. unfold build_turns. rewrite fold_left_app. cbn [fold_left].
  rewrite !(step_opens _ u Hu).
  set (a1 := fold_left step l1 start).
  change (turns (flush_turn start)) with (@nil Turn).
  set (b := {| turns := []; current_user := Some u; assistant_order := [];
               assistant_latest := ∅; tool_results := ∅ |}).
  assert ({| turns := turns (flush_turn a1); current_user := Some u;
             assistant_order := []; assistant_latest := ∅;
             tool_results := ∅ |} = after_turns (turns (flush_turn a1)) b)
    as -> by (unfold after_turns, b; cbn; by rewrite app_nil_r).
  by rewrite fold_after_turns, flush_after_turns.
Qed.

Lemma step_no_opener (a : Assembly) (m : dict) :
  opens_turn m = false →
  turns (step a m) = turns a ∧ current_user (step a m) = current_user a.
Proof.
  intros Ho. destruct (is_reply m) eqn:Er.
  - destruct (step_reply a m Er) as (? & ? & _). done.
  - destruct (step_silent a m Ho Er) as (? & ? & _). done.
Qed.

Lemma flush_turn_idle_user (a : Assembly) :
  current_user a = None → flush_turn a = a.
Proof. unfold flush_turn. by intros ->. Qed.

Lemma fold_step_idle (l : list dict) (a a' : Assembly) :
  current_user a = None → current_user a' = None → turns a = turns a' →
  turns (flush_turn (fold_left step l a))
  = turns (flush_turn (fold_left step l a')).
Proof.
  revert a a'. induction l as [|m l IH]; intros a a' Ha Ha' Ht.
  { cbn. by rewrite !flush_turn_idle_user. }
  cbn [fold_left]. destruct (opens_turn m) eqn:Eo.
  - rewrite !(step_opens _ m Eo).
    rewrite (flush_turn_idle_user a), (flush_turn_idle_user a') by done.
    by rewrite Ht.
  - destruct (step_no_opener a m Eo) as [? ?].
    destruct (step_no_opener a' m Eo) as [? ?].
    apply IH; congruence.
Qed.

Lemma fold_no_opener (pre : list dict) (a : Assembly) :
  forallb (fun m => negb (opens_turn m)) pre = true →
  turns (fold_left step pre a) = turns a
  ∧ current_user (fold_left step pre a) = current_user a.
Proof.
  revert a. induction pre as [|m pre IH]; intros a Hpre; [done|].
  cbn [forallb fold_left] in *. apply andb_prop in Hpre as [Hm Hpre].
  apply negb_true_iff in Hm.
  destruct (step_no_opener a m Hm) as [<- <-]. by apply IH.
Qed.

(** X6. Whatever comes before the first user message that opens a turn
    is ignored: assistant messages and tool results with no open turn
    leave no trace in the result. *)
Theorem build_turns_skips_unopened (pre l : list dict) :
  forallb (fun m => negb (opens_turn m)) pre = true →
  build_turns (pre ++ l) = build_turns l.
Proof.
  intros Hpre. unfold build_turns. rewrite fold_left_app.
  destruct (fold_no_opener pre start Hpre) as [Ht Hu].
  by apply fold_step_idle.
Qed.

Lemma flush_turn_drawn (msgs : list dict) (a : Assembly) :
  drawn_from msgs a → drawn_from msgs (flush_turn a).
Proof.
  intros Ha. pose proof Ha as (Ht & Hu & Hl). unfold flush_turn.
  destruct (current_user a) as [u|] eqn:Eu; [|exact Ha].
  destruct (Nat.eqb _ 0); [exact Ha|].
  split; [|split; cbn; [done|done]]. cbn.
  apply Forall_app. split; [done|]. apply Forall_singleton. cbn.
  split; [by apply Hu|]. apply Forall_forall. intros m Hm.
  apply list_elem_of_omap in Hm as (mid & _ & Hm). by eapply Hl.
Qed.

Lemma step_drawn (msgs : list dict) (a : Assembly) (m : dict) :
  m ∈ msgs → drawn_from msgs a → drawn_from msgs (step a m).
Proof.
  intros Hm Ha. destruct (opens_turn m) eqn:Eo.
  { rewrite (step_opens a m Eo).
    destruct (flush_turn_drawn msgs a Ha) as (Ht & _ & _).
    split; [done|]. split; cbn.
    - by intros u [= <-].
    - intros mid m'. by rewrite lookup_empty. }
  destruct (is_reply m) eqn:Er.
  - destruct (reply_not_tool_result m Er) as [Htr _].
    unfold step. rewrite Htr. unfold is_reply in Er.
    apply bool_decide_eq_true in Er as Er'. rewrite Er'.
    rewrite bool_decide_eq_false_2 by (by intros [=]).
    rewrite bool_decide_eq_true_2 by done.
    destruct a as [ts [u|] order latest results]; [|exact Ha].
    destruct Ha as (Ht & Hu & Hl). cbn in *.
    split; [done|]. split; [done|]. cbn.
    intros mid m'. set (k := default _ _).
    destruct (decide (k = mid)) as [->|Hne].
    + rewrite lookup_insert_eq. intros [= <-]. split; [done|].
      unfold is_reply. by apply bool_decide_eq_true.
    + rewrite lookup_insert_ne by done. apply Hl.
  - destruct (step_silent a m Eo Er) as (Ht & Hu & _ & Hl).
    destruct Ha as (? & ? & ?). split; [by rewrite Ht|].
    split; [by rewrite Hu|by rewrite Hl].
Qed.

(** X7. [build_turns] makes up no message: the user message of every turn
    is a message of the list that opens a turn, and every assistant message
    of a turn is an assistant message of the list. *)
Theorem build_turns_messages_from_input (msgs : list dict) :
  Forall (fun t => (user_msg t ∈ msgs ∧ opens_turn (user_msg t) = true)
                   ∧ Forall (fun m => m ∈ msgs ∧ is_reply m = true)
                       (assistant_msgs t)) (build_turns msgs).
Proof.
  unfold build_turns.
  assert (∀ l a, Forall (fun m => m ∈ msgs) l → drawn_from msgs a →
                 drawn_from msgs (fold_left step l a)) as Hfold.
  { induction l as [|m l IH]; intros a Hl Ha; [done|].
    apply Forall_cons in Hl as [Hm Hl]. cbn. by apply IH, step_drawn. }
  apply flush_turn_drawn, Hfold.
  - by apply Forall_forall.
  - split; [done|]. split; [done|]. intros mid m. cbn.
    by rewrite lookup_empty.
Qed.

Lemma step_keeps_results (a : Assembly) (m : dict) :
  is_tool_result m = false → opens_turn m = false →
  tool_results (step a m) = tool_results a.
Proof.
  unfold opens_turn, step. intros -> Ho. cbn [negb] in Ho.
  rewrite andb_true_r in Ho. rewrite Ho.
  destruct (bool_decide (get_role m = Some (py "assistant"))); [|done].
  by destruct a as [ts [u|] order latest results].
Qed.

Lemma tool_result_no_opener (m : dict) :
  is_tool_result m = true → opens_turn m = false.
Proof. unfold opens_turn. intros ->. by rewrite andb_false_r. Qed.

(** Between two openers the tool results fold into the map and nothing
    else of the turn changes hands. *)
Lemma fold_step_segment (body : list dict) (a : Assembly) :
  forallb (fun m => negb (opens_turn m)) body = true →
  turns (fold_left step body a) = turns a
  ∧ current_user (fold_left step body a) = current_user a
  ∧ tool_results (fold_left step body a)
    = fold_left record_tool_result (tool_fragments body) (tool_results a).
Proof.
  revert a. induction body as [|m body IH]; intros a Hbody; [done|].
  cbn [forallb fold_left] in *. apply andb_prop in Hbody as [Hm Hbody].
  apply negb_true_iff in Hm.
  destruct (IH (step a m) Hbody) as (-> & -> & ->).
  destruct (step_no_opener a m Hm) as [-> ->].
  split; [done|]. split; [done|]. unfold tool_fragments. cbn [flat_map].
  rewrite fold_left_app. f_equal.
  destruct (is_tool_result m) eqn:Et.
  - by rewrite (step_tool_result a m Et).
  - by rewrite step_keeps_results.
Qed.

Lemma build_turns_tool_results_scoped_aux (u : dict) (body : list dict) :
  opens_turn u = true →
  forallb (fun m => negb (opens_turn m)) body = true →
  Forall (fun t => user_msg t = u
                   ∧ ∀ k, tool_results_by_id t !! k
                          = last_write k (tool_fragments body))
    (build_turns (u :: body)).
Proof.
  intros Hu Hbody. unfold build_turns. cbn [fold_left].
  rewrite (step_opens start u Hu).
  change (turns (flush_turn start)) with (@nil Turn).
  set (b := {| turns := []; current_user := Some u; assistant_order := [];
               assistant_latest := ∅; tool_results := ∅ |}).
  destruct (fold_step_segment body b Hbody) as (Ht & Hc & Hr).
  unfold flush_turn. rewrite Hc. cbn.
  destruct (Nat.eqb _ 0); rewrite Ht; [done|].
  apply Forall_singleton. cbn. split; [done|]. intros k.
  rewrite Hr, fold_record_lookup. cbn.
  destruct (last_write k _); [done|apply lookup_empty].
Qed.

(** X8. The tool results a turn carries are those delivered after its
    user message and before the next one that opens a turn: under each key
    the content of the last such fragment written under it, and nothing
    under a key none of them writes. *)
Theorem build_turns_tool_results_scoped (u : dict) (body : list dict) :
  opens_turn u = true →
  forallb (fun m => negb (opens_turn m)) body = true →
  Forall (fun t => user_msg t = u
                   ∧ ∀ k, tool_results_by_id t !! k
                          = last_write k (tool_fragments body))
    (build_turns (u :: body)).
Proof. apply build_turns_tool_results_scoped_aux. Qed.

(** *** Assistant messages that share an id *)

Lemma step_reply_open (a : Assembly) (m u : dict) :
  is_reply m = true → current_user a = Some u →
  let mid := default (noid (length (assistant_order a)))
               (get_message_id m) in
  step a m =
    {| turns := turns a;
       current_user := current_user a;
       assistant_order :=
         match assistant_latest a !! mid with
         | None => assistant_order a ++ [mid]
         | Some _ => assistant_order a
         end;
       assistant_latest := <[mid := m]> (assistant_latest a);
       tool_results := tool_results a |}.
Proof.
  intros Er Hu. destruct (reply_not_tool_result m Er) as [Htr _].
  unfold step. rewrite Htr. unfold is_reply in Er.
  apply bool_decide_eq_true in Er. rewrite Er.
  rewrite bool_decide_eq_false_2 by (by intros [=]).
  rewrite bool_decide_eq_true_2 by done. by rewrite Hu.
Qed.

Lemma step_other (a : Assembly) (m : dict) :
  opens_turn m = false → is_reply m = false →
  assistant_order (step a m) = assistant_order a
  ∧ assistant_latest (step a m) = assistant_latest a.
Proof. intros Ho Er. by destruct (step_silent a m Ho Er) as (_ & _ & ? & ?). Qed.

Lemma reply_ids_snoc (seen : list dict) (m : dict) :
  reply_ids (seen ++ [m])
  = reply_ids seen
    ++ (if is_reply m then option_list (get_message_id m) else []).
Proof.
  unfold reply_ids. rewrite List.filter_app, omap_app. f_equal. cbn.
  destruct (is_reply m); [|done]. cbn. by destruct (get_message_id m).
Qed.

Lemma first_seen_snoc (ids : list pystr) (x : pystr) :
  first_seen (ids ++ [x])
  = if decide (x ∈ ids) then first_seen ids else first_seen ids ++ [x].
Proof.
  unfold first_seen. rewrite reverse_snoc. cbn [remove_dups].
  destruct (decide_rel elem_of x (reverse ids)) as [Hin|Hin];
    destruct (decide (x ∈ ids)) as [Hin'|Hin']; try done.
  - exfalso. apply Hin'. by apply elem_of_reverse.
  - exfalso. apply Hin. by apply elem_of_reverse.
  - by rewrite reverse_cons.
Qed.

Lemma latest_with_snoc (mid : pystr) (seen : list dict) (m : dict) :
  latest_with mid (seen ++ [m])
  = if is_reply m && bool_decide (get_message_id m = Some mid)
    then Some m else latest_with mid seen.
Proof.
  unfold latest_with. rewrite List.filter_app. cbn [List.filter].
  destruct (is_reply m && _); [by rewrite last_snoc|by rewrite app_nil_r].
Qed.

Lemma latest_with_none (mid : pystr) (seen : list dict) :
  latest_with mid seen = None ↔ mid ∉ reply_ids seen.
Proof.
  induction seen as [|m seen IH] using rev_ind.
  { split; [intros _; apply not_elem_of_nil|done]. }
  rewrite latest_with_snoc, reply_ids_snoc, not_elem_of_app.
  destruct (is_reply m); cbn.
  - case_bool_decide as Hid.
    + rewrite Hid. cbn. split; [done|]. intros [_ Hn]. exfalso.
      apply Hn. by apply list_elem_of_singleton.
    + rewrite IH. split; [|by intros [? _]]. intros Hn. split; [done|].
      destruct (get_message_id m) as [mid'|]; cbn; [|apply not_elem_of_nil].
      intros ->%list_elem_of_singleton. done.
  - rewrite IH. split; [|by intros [? _]]. intros Hn. split; [done|].
    apply not_elem_of_nil.
Qed.

Lemma fold_step_ids (u : dict) (l seen : list dict) (a : Assembly) :
  current_user a = Some u →
  forallb (fun m => negb (opens_turn m)) l = true →
  Forall (fun m => is_reply m = true → is_Some (get_message_id m)) l →
  assistant_order a = first_seen (reply_ids seen) →
  (∀ mid, assistant_latest a !! mid = latest_with mid seen) →
  assistant_order (fold_left step l a) = first_seen (reply_ids (seen ++ l))
  ∧ ∀ mid, assistant_latest (fold_left step l a) !! mid
           = latest_with mid (seen ++ l).
Proof.
  revert seen a. induction l as [|m l IH]; intros seen a Hu Hl Hid Ho Hlat.
  { by rewrite app_nil_r. }
  cbn [forallb fold_left] in *. apply andb_prop in Hl as [Hm Hl].
  apply negb_true_iff in Hm. apply Forall_cons in Hid as [Hmid Hid].
  replace (seen ++ m :: l) with ((seen ++ [m]) ++ l)
    by (by rewrite <-app_assoc).
  destruct (step_no_opener a m Hm) as [_ Hu'].
  apply IH; [by rewrite Hu'|done|done|..].
  - rewrite reply_ids_snoc. destruct (is_reply m) eqn:Er.
    + destruct (Hmid eq_refl) as [mid Emid].
      rewrite (step_reply_open a m u Er Hu). cbn. rewrite Emid. cbn.
      rewrite first_seen_snoc, Hlat, <-Ho.
      destruct (decide (mid ∈ reply_ids seen)) as [Hin|Hin].
      * destruct (latest_with mid seen) eqn:E; [done|].
        by apply latest_with_none in E.
      * by apply latest_with_none in Hin as ->.
    + rewrite app_nil_r. by destruct (step_other a m Hm Er) as [-> _].
  - intros mid'. rewrite latest_with_snoc. destruct (is_reply m) eqn:Er.
    + destruct (Hmid eq_refl) as [mid Emid].
      rewrite (step_reply_open a m u Er Hu). cbn. rewrite Emid. cbn.
      case_bool_decide as E.
      * injection E as ->. by rewrite lookup_insert_eq.
      * rewrite lookup_insert_ne by congruence. apply Hlat.
    + cbn. destruct (step_other a m Hm Er) as [_ ->]. apply Hlat.
Qed.

(** X9. When the assistant messages of a turn all carry an id, the turn
    holds one message per distinct id, in the order in which the ids were
    first seen, and for each id the last message that carried it. *)
Theorem build_turns_latest_per_id (u : dict) (body : list dict) :
  opens_turn u = true →
  forallb (fun m => negb (opens_turn m)) body = true →
  Forall (fun m => is_reply m = true → is_Some (get_message_id m)) body →
  Forall (fun t => assistant_msgs t
                   = omap (fun mid => latest_with mid body)
                       (first_seen (reply_ids body)))
    (build_turns (u :: body)).
Proof.
  intros Hu Hbody Hids. unfold build_turns. cbn [fold_left].
  rewrite (step_opens start u Hu).
  change (turns (flush_turn start)) with (@nil Turn).
  set (b := {| turns := []; current_user := Some u; assistant_order := [];
               assistant_latest := ∅; tool_results := ∅ |}).
  destruct (fold_step_segment body b Hbody) as (Ht & Hc & _).
  destruct (fold_step_ids u body [] b eq_refl Hbody Hids eq_refl)
    as [Ho Hl]; [intros mid; apply lookup_empty|].
  cbn [List.app] in *. unfold flush_turn. rewrite Hc. cbn.
  destruct (Nat.eqb _ 0); rewrite Ht; [done|].
  apply Forall_singleton. cbn. rewrite Ho.
  apply list_omap_ext. apply Forall2_same_length_lookup. split; [done|].
  intros i x y Hx Hy. assert (x = y) as <- by congruence. apply Hl.
Qed.

(** *** Assistant messages without an id *)

Lemma py_inj (s t : string) : py s = py t → s = t.
Proof.
  unfold py. intros E.
  rewrite <-(string_of_list_ascii_of_string s),
    <-(string_of_list_ascii_of_string t).
  f_equal. revert E.
  generalize (list_ascii_of_string s), (list_ascii_of_string t).
  induction l as [|a l IH]; intros [|b l'] E; simplify_eq/=; [done|].
  f_equal; [|by apply IH].
  rewrite <-(ascii_N_embedding a), <-(ascii_N_embedding b). by f_equal.
Qed.

Lemma to_uint_nonnil (n : nat) : Nat.to_uint n ≠ Decimal.Nil.
Proof.
  rewrite <-(Unsigned.of_to n) at 1. rewrite Unsigned.to_of.
  apply DecimalFacts.unorm_nonnil.
Qed.

Lemma str_of_nat_inj (i j : nat) : str_of_nat i = str_of_nat j → i = j.
Proof.
  unfold str_of_nat. intros E%py_inj.
  apply (f_equal NilZero.uint_of_string) in E.
  rewrite !NilZero.usu in E by apply to_uint_nonnil.
  injection E as E. by apply Unsigned.to_uint_inj.
Qed.

Lemma noid_inj (i j : nat) : noid i = noid j → i = j.
Proof. unfold noid. intros E%app_inv_head. by apply str_of_nat_inj. Qed.

Lemma noid_fresh (n : nat) : noid n ∉ map noid (seq 0 n).
Proof.
  intros Hin. apply list_elem_of_In, in_map_iff in Hin as (i & E & Hi).
  apply noid_inj in E as ->. apply in_seq in Hi. lia.
Qed.

Lemma omap_all_some {A B} (f : A → option B) (l : list A) (k : list B) :
  Forall2 (fun x y => f x = Some y) l k → omap f l = k.
Proof. induction 1 as [|x y l k Hxy _ IH]; [done|]. cbn. by rewrite Hxy, IH. Qed.

Lemma fold_step_unnamed (u : dict) (l rs : list dict) (a : Assembly) :
  current_user a = Some u →
  forallb (fun m => negb (opens_turn m)) l = true →
  Forall (fun m => is_reply m = true → get_message_id m = None) l →
  assistant_order a = map noid (seq 0 (length rs)) →
  Forall2 (fun mid m => assistant_latest a !! mid = Some m)
    (assistant_order a) rs →
  (∀ mid, is_Some (assistant_latest a !! mid) → mid ∈ assistant_order a) →
  Forall2 (fun mid m => assistant_latest (fold_left step l a) !! mid = Some m)
    (assistant_order (fold_left step l a)) (rs ++ List.filter is_reply l).
Proof.
  revert rs a. induction l as [|m l IH]; intros rs a Hu Hl Hid Ho Hlat Hdom.
  { cbn. by rewrite app_nil_r. }
  cbn [forallb fold_left List.filter] in *. apply andb_prop in Hl as [Hm Hl].
  apply negb_true_iff in Hm. apply Forall_cons in Hid as [Hmid Hid].
  destruct (step_no_opener a m Hm) as [_ Hu'].
  destruct (is_reply m) eqn:Er.
  - replace (rs ++ m :: List.filter is_reply l)
      with ((rs ++ [m]) ++ List.filter is_reply l) by (by rewrite <-app_assoc).
    assert (length (assistant_order a) = length rs) as Hlen
      by (by rewrite Ho, length_map, length_seq).
    assert (assistant_latest a !! noid (length rs) = None) as Hfresh.
    { destruct (assistant_latest a !! noid (length rs)) eqn:E; [|done].
      exfalso. apply (noid_fresh (length rs)). rewrite <-Ho.
      apply Hdom. rewrite E. by eexists. }
    pose proof (step_reply_open a m u Er Hu) as Hstep. cbn zeta in Hstep.
    rewrite (Hmid eq_refl), Hlen in Hstep. cbn [default from_option] in Hstep.
    rewrite Hfresh in Hstep.
    apply IH; [by rewrite Hu'|done|done|..]; rewrite Hstep;
      cbn [assistant_order assistant_latest].
    + rewrite Ho, length_app. cbn [length].
      by rewrite Nat.add_1_r, seq_S, map_app.
    + apply Forall2_app.
      * apply (Forall2_impl _ _ _ _ Hlat). intros mid m' Hmm.
        rewrite lookup_insert_ne; [done|]. intros <-. by rewrite Hfresh in Hmm.
      * apply Forall2_cons. split; [apply lookup_insert_eq|done].
    + intros mid. destruct (decide (noid (length rs) = mid)) as [<-|Hne].
      * intros _. apply elem_of_app. right. by apply list_elem_of_singleton.
      * rewrite lookup_insert_ne by done. intros Hin%Hdom.
        apply elem_of_app. by left.
  - destruct (step_other a m Hm Er) as [Eo El].
    apply IH; [by rewrite Hu'|done|done|by rewrite Eo|..]; rewrite ?Eo, ?El;
      done.
Qed.

(** X10. When none of the assistant messages of a turn carries an id, the
    turn holds every one of them, in the order they came: the keys
    [build_turns] makes up for them never meet. *)
Theorem build_turns_keeps_unnamed (u : dict) (body : list dict) :
  opens_turn u = true →
  forallb (fun m => negb (opens_turn m)) body = true →
  Forall (fun m => is_reply m = true → get_message_id m = None) body →
  Forall (fun t => assistant_msgs t = List.filter is_reply body)
    (build_turns (u :: body)).
Proof.
  intros Hu Hbody Hids. unfold build_turns. cbn [fold_left].
  rewrite (step_opens start u Hu).
  change (turns (flush_turn start)) with (@nil Turn).
  set (b := {| turns := []; current_user := Some u; assistant_order := [];
               assistant_latest := ∅; tool_results := ∅ |}).
  destruct (fold_step_segment body b Hbody) as (Ht & Hc & _).
  assert (Forall2 (fun mid m => assistant_latest (fold_left step body b) !! mid
                                = Some m)
            (assistant_order (fold_left step body b))
            (List.filter is_reply body)) as Hall.
  { apply (fold_step_unnamed u body [] b); try done.
    intros mid. cbn. rewrite lookup_empty. by intros [? [=]]. }
  unfold flush_turn. rewrite Hc. cbn.
  destruct (Nat.eqb _ 0); rewrite Ht; [done|].
  apply Forall_singleton. cbn. by apply omap_all_some.
Qed.

(** ** The driver, continued *)

Lemma read_new_jsonl_again (f : FileState) (ss ss' : SessionState)
    (msgs : list json) :
  read_new_jsonl f ss = Some (msgs, ss') →
  read_new_jsonl f ss' = Some ([], ss').
Proof.
  destruct f as [| | |data]; try done; try (by intros [= <- <-]).
  unfold read_new_jsonl. cbn [file_exists].
  destruct (Z.ltb_spec (offset ss) 0) as [Hneg|Hpos].
  { intros [= <- <-].
    by assert ((offset ss <? 0) = true) as -> by (by apply Z.ltb_lt). }
  destruct (drop (Z.to_nat (offset ss)) data) as [|b chunk] eqn:Echunk;
    intros [= <- <-].
  - assert ((offset ss <? 0) = false) as -> by (by apply Z.ltb_ge).
    by rewrite Echunk.
  - cbn [offset].
    assert (offset ss + len (b :: chunk) = len data) as ->.
    { rewrite <-Echunk. unfold len. rewrite length_drop.
      assert (length (drop (Z.to_nat (offset ss)) data) ≠ 0%nat)
        by (by rewrite Echunk).
      rewrite length_drop in *. lia. }
    assert ((len data <? 0) = false) as ->
      by (apply Z.ltb_ge; unfold len; lia).
    unfold len. by rewrite Nat2Z.id, drop_all.
Qed.

(** The reader does not look at the turn count. *)
Lemma read_new_jsonl_any_count (f : FileState) (ss ss' : SessionState)
    (msgs : list json) (n : Z) :
  read_new_jsonl f ss = Some (msgs, ss') →
  read_new_jsonl f
    {| offset := offset ss; buffer := buffer ss; turn_count := n |}
  = Some (msgs, {| offset := offset ss'; buffer := buffer ss';
                   turn_count := n |}).
Proof.
  destruct f as [| | |data]; try done; try (by intros [= <- <-]).
  cbn. destruct (offset ss <? 0); [by intros [= <- <-]|].
  destruct (drop _ data); by intros [= <- <-].
Qed.

(** X11. A second read of an unchanged file gives no message and leaves
    the state as the first read returned it, whatever the file and the
    state were, wherever [exists()] answers. *)
Theorem read_new_jsonl_unchanged_file (f : FileState) (ss : SessionState) :
  f ≠ Inaccessible →
  ∃ msgs ss', read_new_jsonl f ss = Some (msgs, ss')
              ∧ read_new_jsonl f ss' = Some ([], ss').
Proof.
  intros Hf. destruct (read_new_jsonl_returns f ss Hf) as (msgs & ss' & E & _).
  exists msgs, ss'. split; [done|]. by apply (read_new_jsonl_again f ss ss' msgs).
Qed.

(** An invocation either ends without saving and without a call of
    [emit_turn], or gets to assemble turns. *)
Lemma main_inv (w : World) :
  (saved (main w) = None ∧ turn_numbers (trace (main w)) = [])
  ∨ ∃ p sid path g key ss0 ss msgs ms,
      reaches_assembly w p sid path g key ss0 ss msgs ms.
Proof.
  unfold main, reaches_assembly.
  case_bool_decide as Hen; [|by left]. cbn [negb].
  destruct (env_provider w) as [|c name] eqn:Ename; [by left|].
  destruct (_create_provider w (c :: name)) as [p|] eqn:Hp; [|by left].
  destruct (extract_session_and_transcript _) as [[sid [path|]]|] eqn:Hx;
    [|left; by destruct (truthy sid)|by left].
  destruct (truthy sid) eqn:Hsid; [|by left].
  destruct (file_exists (files w path)) as [[|]|] eqn:Hfile;
    [|by left|by left].
  unfold process.
  destruct (lock_opens w) eqn:Hlock; [|by left]. cbn [negb].
  destruct (load_state (state_file w)) as [| | | | | |g] eqn:Hst;
    try (by left).
  destruct (state_key (py_str sid) path) as [key|] eqn:Hkey; [|by left].
  destruct (load_session_state (JObj g) key) as [ss0|] eqn:Hss0; [|by left].
  destruct (read_new_jsonl (files w path) ss0) as [[msgs ss]|] eqn:Hread;
    [|by left].
  destruct (as_dicts msgs) as [ms|] eqn:Hms.
  - right. by exists p, sid, path, g, key, ss0, ss, msgs, ms.
  - left. by destruct msgs as [|m msgs].
Qed.

(** [save_state] is called only by an invocation that got to assemble
    turns and whose [emit_turn] calls were all caught. *)
Lemma main_saved_inv (w : World) (g1 : dict) :
  saved (main w) = Some g1 →
  ∃ p sid path g key ss0 ss msgs ms,
    reaches_assembly w p sid path g key ss0 ss msgs ms
    ∧ all_caught (numbered_calls p sid path (turn_count ss0) (build_turns ms))
      = true.
Proof.
  intros Hsaved. destruct (main_inv w) as [[Hnone _]|Hrun]; [congruence|].
  destruct Hrun as (p & sid & path & g & key & ss0 & ss & msgs & ms & Hrun).
  exists p, sid, path, g, key, ss0, ss, msgs, ms. split; [done|].
  destruct (all_caught _) eqn:Hcaught; [done|].
  by rewrite (main_run_escaped _ _ _ _ _ _ _ _ _ _ Hrun Hcaught) in Hsaved.
Qed.

Lemma main_run_numbers (w : World) (p : Provider) (sid : json)
    (path : pystr) (g : dict) (key : pystr) (ss0 ss : SessionState)
    (msgs : list json) (ms : list dict) (n : Z) :
  reaches_assembly w p sid path g key ss0 ss msgs ms →
  n ∈ turn_numbers (trace (main w)) →
  turn_count ss0 < n ≤ turn_count ss0 + len (build_turns ms).
Proof.
  intros Hrun.
  destruct (all_caught (numbered_calls p sid path (turn_count ss0)
                          (build_turns ms))) eqn:Hcaught.
  - rewrite (main_run _ _ _ _ _ _ _ _ _ _ Hrun Hcaught). cbn [trace].
    change (Constructed (env_provider w) :: ?l)
      with ([Constructed (env_provider w)] ++ l).
    rewrite !turn_numbers_app. cbn [turn_numbers omap list_omap].
    destruct (_ =? 0); cbn [omap list_omap List.app];
      rewrite app_nil_r; apply numbered_calls_bounds.
  - rewrite (main_run_escaped _ _ _ _ _ _ _ _ _ _ Hrun Hcaught). cbn [trace].
    change (Constructed (env_provider w) :: ?l)
      with ([Constructed (env_provider w)] ++ l).
    rewrite !turn_numbers_app. cbn [turn_numbers omap list_omap List.app].
    rewrite app_nil_r. intros Hn%until_escape_numbers.
    by apply numbered_calls_bounds in Hn.
Qed.

Lemma create_provider_next (w : World) (g : dict) fs t (name : pystr) :
  _create_provider (next_world w g fs t) name = _create_provider w name.
Proof. done. Qed.

(** X12. Run again with nothing appended, an invocation that saved its
    state calls [emit_turn] for no turn, and what it saves reads back, for
    every session, as what was saved before. *)
Theorem main_second_run_emits_nothing (w : World) (g1 : dict) (t : pystr) :
  saved (main w) = Some g1 →
  let again := main (next_world w g1 (files w) t) in
  turn_numbers (trace again) = []
  ∧ ∃ g2, saved again = Some g2
          ∧ ∀ k, load_session_state (JObj g2) k
                 = load_session_state (JObj g1) k.
Proof.
  intros Hsaved. cbn zeta.
  destruct (main_saved_inv w g1 Hsaved)
    as (p & sid & path & g & key & ss0 & ss & msgs & ms & Hrun & Hcaught).
  pose proof Hrun as (Hen & Hp & Hx & Hsid & Hfile & Hlock & Hst & Hkey & Hss0
                      & Hread & Hms).
  rewrite (main_run _ _ _ _ _ _ _ _ _ _ Hrun Hcaught) in Hsaved.
  cbn in Hsaved. injection Hsaved as <-.
  set (ss1 := {| offset := offset ss; buffer := buffer ss;
                 turn_count := turn_count ss0 + len (build_turns ms) |}).
  assert (read_new_jsonl (files w path) ss1 = Some ([], ss1)) as Hread1.
  { pose proof (read_new_jsonl_again _ _ _ _ Hread) as Hag.
    apply (read_new_jsonl_any_count _ _ _ _
             (turn_count ss0 + len (build_turns ms))) in Hag.
    exact Hag. }
  assert (reaches_assembly
            (next_world w (write_session_state g key ss1 (now w)) (files w) t)
            p sid path (write_session_state g key ss1 (now w)) key ss1 ss1
            [] []) as Hrun2.
  { repeat split; try done. apply load_after_write. }
  rewrite (main_run _ _ _ _ _ _ _ _ _ _ Hrun2 eq_refl). cbn [trace saved].
  split; [reflexivity|]. eexists. split; [reflexivity|]. intros k.
  destruct (decide (k = key)) as [->|Hne].
  - rewrite !load_after_write. unfold ss1. cbn [offset buffer turn_count].
    do 2 f_equal. change (len (build_turns [])) with 0. lia.
  - unfold load_session_state, write_session_state.
    by rewrite !lookup_insert_ne.
Qed.

(** X13. Turn numbers never come twice within a session: whatever the
    transcript holds when the session is next invoked on the state an
    invocation saved, every turn number of the later invocation is above
    every turn number of the earlier one. *)
Theorem main_turn_numbers_advance (w : World) (g1 : dict)
    (fs : pystr → FileState) (t : pystr) (n1 n2 : Z) :
  saved (main w) = Some g1 →
  n1 ∈ turn_numbers (trace (main w)) →
  n2 ∈ turn_numbers (trace (main (next_world w g1 fs t))) →
  n1 < n2.
Proof.
  intros Hsaved Hn1 Hn2.
  destruct (main_saved_inv w g1 Hsaved)
    as (p & sid & path & g & key & ss0 & ss & msgs & ms & Hrun & Hcaught).
  pose proof (main_run_numbers _ _ _ _ _ _ _ _ _ _ n1 Hrun Hn1) as Hb1.
  rewrite (main_run _ _ _ _ _ _ _ _ _ _ Hrun Hcaught) in Hsaved.
  cbn in Hsaved. injection Hsaved as <-.
  match type of Hn2 with
  | _ ∈ turn_numbers (trace (main ?w2)) =>
      destruct (main_inv w2) as [[_ Hnone]|Hrun'];
        [rewrite Hnone in Hn2; by apply not_elem_of_nil in Hn2|]
  end.
  destruct Hrun'
    as (p' & sid' & path' & g' & key' & ss0' & ss' & msgs' & ms' & Hrun').
  pose proof (main_run_numbers _ _ _ _ _ _ _ _ _ _ n2 Hrun' Hn2) as Hb2.
  destruct Hrun as (_ & _ & Hx & _ & _ & _ & _ & Hkey & _).
  destruct Hrun' as (_ & _ & Hx' & _ & _ & _ & Hst' & Hkey' & Hss0' & _).
  cbn [next_world stdin state_file load_state default from_option] in *.
  rewrite Hx in Hx'. injection Hx' as <- <-.
  rewrite Hkey in Hkey'. injection Hkey' as <-.
  injection Hst' as <-. rewrite load_after_write in Hss0'.
  injection Hss0' as <-. cbn [turn_count] in Hb2. lia.
Qed.





(** X15. What an invocation saves differs from the state it loaded in the
    entry of its own session only, and in that entry neither the offset
    nor the turn count has gone down. *)
Theorem main_touches_one_session (w : World) (g1 : dict) :
  saved (main w) = Some g1 →
  ∃ sid path key g ss0 ss1,
    extract_session_and_transcript (read_hook_payload (stdin w))
    = Some (sid, Some path)
    ∧ state_key (py_str sid) path = Some key
    ∧ load_state (state_file w) = JObj g
    ∧ (∀ k, k ≠ key → g1 !! k = g !! k)
    ∧ load_session_state (JObj g) key = Some ss0
    ∧ load_session_state (JObj g1) key = Some ss1
    ∧ offset ss0 ≤ offset ss1
    ∧ turn_count ss0 ≤ turn_count ss1.
Proof.
  intros Hsaved.
  destruct (main_saved_inv w g1 Hsaved)
    as (p & sid & path & g & key & ss0 & ss & msgs & ms & Hrun & Hcaught).
  rewrite (main_run _ _ _ _ _ _ _ _ _ _ Hrun Hcaught) in Hsaved.
  cbn in Hsaved. injection Hsaved as <-.
  destruct Hrun as (_ & _ & Hx & _ & _ & _ & Hst & Hkey & Hss0 & Hread & _).
  exists sid, path, key, g, ss0. eexists.
  split; [done|]. split; [done|]. split; [done|].
  split; [intros k Hk; unfold write_session_state; by rewrite lookup_insert_ne|].
  split; [done|]. split; [apply load_after_write|]. cbn.
  pose proof (read_new_jsonl_offset_le _ _ _ _ Hread) as Hle.
  split; [done|]. unfold len. lia.
Qed.

(** X20. When the lock file cannot be opened, an invocation that got past
    its guards does nothing with the session: it calls neither
    [emit_turn] nor [flush], saves nothing, shuts the provider down, and
    returns 0 unless the shutdown raises outside [Exception]. *)
Theorem main_without_lock (w : World) (p : Provider) (sid : json)
    (path : pystr) :
  env_enabled w = py "true" →
  _create_provider w (env_provider w) = Some p →
  extract_session_and_transcript (read_hook_payload (stdin w))
  = Some (sid, Some path) →
  truthy sid = true →
  file_exists (files w path) = Some true →
  lock_opens w = false →
  main w = {| status := if escapes (shutdown_result p) then None else Some 0;
              saved := None;
              trace := [Constructed (env_provider w);
                        Shutdown (shutdown_result p)] |}.
Proof.
  intros Hen Hp Hx Hsid Hfile Hlock.
  unfold main. rewrite Hen, bool_decide_eq_true_2 by done. cbn [negb].
  destruct (env_provider w) as [|c name] eqn:Ename; [done|].
  rewrite Hp, Hx, Hsid, Hfile. unfold process. by rewrite Hlock.
Qed.

(** ** Truncation, continued *)

(** X16. For a limit that is not negative, the text [truncate_text]
    returns is a prefix of the text it was given, and truncating it again
    with the same limit returns it as it is, marked as not truncated. *)
Theorem truncate_text_again (T text : pystr) (meta : dict) (L : Z) :
  0 ≤ L →
  truncate_text (Some T) L = Some (text, meta) →
  text `prefix_of` T
  ∧ truncate_text (Some text) L
    = Some (text, <[py "truncated" := JBool false]>
                    (<[py "orig_len" := JInt (len text)]> ∅)).
Proof.
  intros HL. unfold truncate_text.
  destruct (Z.leb_spec (len T) L) as [Hle|Hgt].
  - intros [= <- _]. split; [done|].
    by assert ((len T <=? L) = true) as -> by (by apply Z.leb_le).
  - destruct (utf8_encode T); [|done]. intros [= <- _].
    assert (slice_to T L = take (Z.to_nat L) T) as ->.
    { unfold slice_to. destruct (Z.ltb_spec L 0); [lia|done]. }
    split; [apply prefix_take|].
    assert ((len (take (Z.to_nat L) T) <=? L) = true) as ->; [|done].
    apply Z.leb_le. unfold len. rewrite length_take. lia.
Qed.

(** ** Tool calls *)

Lemma tool_call_shape (tu : json) :
  has_type "tool_use" tu = true →
  (∃ s, tool_call tu !! py "id" = Some (JStr s))
  ∧ (∃ v, tool_call tu !! py "name" = Some v ∧ truthy v = true)
  ∧ (∃ v, tool_call tu !! py "input" = Some v ∧ v ≠ JNull).
Proof.
  destruct tu as [| | | | | |d]; try done. intros _. cbn [tool_call].
  split; [|split].
  - eexists. apply lookup_insert_eq.
  - eexists. rewrite lookup_insert_ne, lookup_insert_eq by done.
    split; [done|]. unfold py_or. by destruct (truthy (get d "name")) eqn:E.
  - eexists. rewrite 2!lookup_insert_ne, lookup_insert_eq by done.
    split; [done|]. by destruct (get d "input").
Qed.

Lemma tool_call_for (tu : json) :
  has_type "tool_use" tu = true → call_for tu (tool_call tu).
Proof.
  destruct tu as [| | | | | |d]; try done. intros _. exists d.
  split; [done|]. cbn [tool_call]. split; [|split; [|split]].
  - rewrite lookup_insert_eq. unfold py_or.
    by destruct (truthy (get d "id")).
  - rewrite lookup_insert_ne, lookup_insert_eq by done. unfold py_or.
    by destruct (truthy (get d "name")).
  - by rewrite 2!lookup_insert_ne, lookup_insert_eq by done.
  - intros k H1 H2 H3. by rewrite !lookup_insert_ne, lookup_empty by done.
Qed.

Lemma tool_calls_of_fragments (l : list json) :
  Forall (fun tu => has_type "tool_use" tu = true) l →
  Forall2 call_for l (map tool_call l).
Proof.
  induction 1 as [|tu l Htu _ IH]; [constructor|].
  cbn [map]. constructor; [by apply tool_call_for|exact IH].
Qed.

Lemma iter_tool_uses_typed (content : json) :
  Forall (fun tu => has_type "tool_use" tu = true) (iter_tool_uses content).
Proof.
  unfold iter_tool_uses. destruct content; try constructor.
  apply Forall_forall. intros tu Htu%list_elem_of_In.
  by apply filter_In in Htu as [_ ?].
Qed.

(** X17. [_tool_calls_from_assistants] gives one call for every
    [tool_use] fragment of the assistant messages, in their order. The
    call of a fragment holds its id as a string (the empty string when
    the fragment has no truthy id), its name (["unknown"] when it has no
    truthy name), its input ([{}] when it has none), and nothing else; so
    every call has a string under ["id"], a truthy value under ["name"]
    and a value other than [None] under ["input"]. *)
Theorem tool_calls_well_formed (assistant_msgs : list dict) :
  Forall2 call_for
    (flat_map (fun am => iter_tool_uses (get_content (JObj am)))
       assistant_msgs)
    (_tool_calls_from_assistants assistant_msgs)
  ∧ Forall (fun c =>
              (∃ s, c !! py "id" = Some (JStr s))
              ∧ (∃ v, c !! py "name" = Some v ∧ truthy v = true)
              ∧ (∃ v, c !! py "input" = Some v ∧ v ≠ JNull))
      (_tool_calls_from_assistants assistant_msgs).
Proof.
  unfold _tool_calls_from_assistants. split.
  - induction assistant_msgs as [|am l IH]; [constructor|]. cbn [flat_map].
    apply Forall2_app; [|exact IH].
    apply tool_calls_of_fragments, iter_tool_uses_typed.
  - apply Forall_forall. intros c Hc.
    apply list_elem_of_In, in_flat_map in Hc as (am & _ & Hc).
    apply in_map_iff in Hc as (tu & <- & Htu).
    apply tool_call_shape.
    pose proof (iter_tool_uses_typed (get_content (JObj am))) as Hty.
    rewrite Forall_forall in Hty. by apply Hty, list_elem_of_In.
Qed.

(** X18. The output [emit_turn] attaches to a tool call of a turn is the
    content of the last tool result delivered in that turn under the id
    of the call, cut to the limit; a call whose id no tool result of the
    turn was written under gets [None]. *)
Theorem call_output_last_result (json_dumps : json → pystr) (L : Z)
    (u : dict) (body : list dict) (t : Turn) (d : dict) (c : N)
    (rest : pystr) :
  opens_turn u = true →
  forallb (fun m => negb (opens_turn m)) body = true →
  t ∈ build_turns (u :: body) →
  get d "id" = JStr (c :: rest) →
  call_output json_dumps L (tool_results_by_id t) (tool_call (JObj d))
  = match last_write (c :: rest) (tool_fragments body) with
    | None => Some JNull
    | Some raw =>
        option_map (fun r => JStr (fst r))
          (truncate_text
             (Some (match raw with JStr s => s | _ => json_dumps raw end)) L)
    end.
Proof.
  intros Hu Hbody Ht Hid.
  pose proof (build_turns_tool_results_scoped_aux u body Hu Hbody) as Hall.
  rewrite Forall_forall in Hall. destruct (Hall t Ht) as [_ Hres].
  unfold call_output. unfold get at 1. cbn [tool_call].
  rewrite lookup_insert_eq. cbn [default from_option].
  rewrite Hid. cbn [py_or truthy py_str id]. rewrite Hres.
  by destruct (last_write _ _).
Qed.

(** ** Cuts in front of an ASCII octet *)

(** X19. The reader resumes at every cut that falls in front of an octet
    below 128, so at every cut of a transcript written in ASCII: the two
    reads return the messages and reach the state of one read of the
    whole. *)
Theorem read_new_jsonl_resumes_before_ascii (old pre : bytes) (b : N)
    (new : bytes) (buf : pystr) (tc : Z) :
  (b <? 128)%N = true →
  let s0 := {| offset := len old; buffer := buf; turn_count := tc |} in
  ∃ m1 s1 m2 s2,
    read_new_jsonl (Contents (old ++ pre)) s0 = Some (m1, s1)
    ∧ read_new_jsonl (Contents (old ++ pre ++ b :: new)) s1 = Some (m2, s2)
    ∧ read_new_jsonl (Contents (old ++ pre ++ b :: new)) s0
      = Some (m1 ++ m2, s2).
Proof.
  intros Hb. apply (read_new_jsonl_resumes old pre (b :: new) buf tc).
  rewrite utf8_decode_ascii by done.
  pose proof (utf8_decode_ascii [] b new Hb) as E. cbn [List.app] in E.
  by rewrite E.
Qed.

End Further.

(** * Worked instances *)

(** C5, on two early exits. In the scenario world with a payload that
    names nothing, and with the transcript file gone, the provider is
    constructed and [main] returns 0 without calling its [shutdown]. *)
Theorem main_early_exit_skips_shutdown :
  let o1 := @main example_builtins empty_payload_world in
  let o2 := @main example_builtins no_transcript_world in
  read_hook_payload (H := example_builtins) (stdin empty_payload_world)
  = JObj ∅
  ∧ o1 = {| status := Some 0; saved := None;
            trace := [Constructed (py "otlp")] |}
  ∧ extract_session_and_transcript (H := example_builtins)
      (read_hook_payload (H := example_builtins) (stdin no_transcript_world))
    = Some (JStr (py "s1"), Some (py "/tmp/t.jsonl"))
  ∧ o2 = {| status := Some 0; saved := None;
            trace := [Constructed (py "otlp")] |}
  ∧ List.filter is_shutdown (trace o1) = []
  ∧ List.filter is_shutdown (trace o2) = [].
Proof.
  cbn zeta. split; [reflexivity|]. split; [reflexivity|].
  split; [reflexivity|]. split; [reflexivity|]. split; reflexivity.
Qed.




(** C3 as stated fails when an [emit_turn] raises what is no
    [Exception]. The session is stored with three turns; two more
    exchanges were appended, so two turns are assembled; the provider is
    interrupted in its first call. Turn 4 is dispatched, turn 5 is not,
    and nothing is saved: the exception leaves [main] after the
    [finally]. *)
Lemma main_stops_at_uncaught_emit :
  let w := resumed_world interrupted_provider in
  let t1 := {| user_msg := msg_user_again; assistant_msgs := [msg_assistant];
               tool_results_by_id := ∅ |} in
  let t2 := {| user_msg := msg_user; assistant_msgs := [msg_assistant];
               tool_results_by_id := ∅ |} in
  load_session_state (H := example_builtins) (load_state (state_file w))
    (py "s1::/tmp/t.jsonl")
  = Some {| offset := 37; buffer := []; turn_count := 3 |}
  ∧ read_new_jsonl (H := example_builtins) (files w (py "/tmp/t.jsonl"))
      {| offset := 37; buffer := []; turn_count := 3 |}
    = Some ([JObj msg_user_again; JObj msg_assistant; JObj msg_user;
             JObj msg_assistant],
            {| offset := 129; buffer := []; turn_count := 3 |})
  ∧ build_turns (H := example_builtins)
      [msg_user_again; msg_assistant; msg_user; msg_assistant]
    = [t1; t2]
  ∧ trace (@main example_builtins w)
    = [Constructed (py "otlp");
       EmitTurn (JStr (py "s1")) 4 t1 (py "/tmp/t.jsonl") Escapes;
       Shutdown Returns]
  ∧ saved (@main example_builtins w) = None
  ∧ status (@main example_builtins w) = None.
Proof.
  cbn zeta. split; [reflexivity|]. split; [reflexivity|].
  split; [reflexivity|]. split; [reflexivity|]. split; reflexivity.
Qed.

Lemma main_dispatches_in_order_witness :
  let w := resumed_world flaky_provider in
  let path := py "/tmp/t.jsonl" in
  let sid := JStr (py "s1") in
  let key := py "s1::/tmp/t.jsonl" in
  let t1 := {| user_msg := msg_user_again; assistant_msgs := [msg_assistant];
               tool_results_by_id := ∅ |} in
  let t2 := {| user_msg := msg_user; assistant_msgs := [msg_assistant];
               tool_results_by_id := ∅ |} in
  load_session_state (H := example_builtins) (JObj stored_state) key
  = Some {| offset := 37; buffer := []; turn_count := 3 |}
  ∧ build_turns (H := example_builtins)
      [msg_user_again; msg_assistant; msg_user; msg_assistant]
    = [t1; t2]
  ∧ trace (@main example_builtins w)
    = [Constructed (py "otlp");
       EmitTurn sid 4 t1 path Raises;
       EmitTurn sid 5 t2 path Returns;
       Flush Raises;
       Shutdown Returns]
  ∧ turn_numbers (trace (@main example_builtins w)) = [4; 5]
  ∧ (∃ g1, saved (@main example_builtins w) = Some g1
           ∧ g1 !! key
             = Some (JObj (<[py "offset" := JInt 129]>
                           (<[py "buffer" := JStr []]>
                            (<[py "turn_count" := JInt 5]>
                             (<[py "updated" := JStr (now w)]> ∅)))))
           ∧ (∀ k, k ≠ key → g1 !! k = stored_state !! k)
           ∧ load_session_state (H := example_builtins) (JObj g1) key
             = Some {| offset := 129; buffer := []; turn_count := 5 |})
  ∧ status (@main example_builtins w) = Some 0.
Proof.
  cbn zeta. split; [reflexivity|]. split; [reflexivity|].
  apply (main_dispatches_in_order (H := example_builtins)
           (resumed_world flaky_provider) flaky_provider (JStr (py "s1"))
           (py "/tmp/t.jsonl") stored_state (py "s1::/tmp/t.jsonl")
           {| offset := 37; buffer := []; turn_count := 3 |}
           {| offset := 129; buffer := []; turn_count := 3 |}
           [JObj msg_user_again; JObj msg_assistant; JObj msg_user;
            JObj msg_assistant]
           [msg_user_again; msg_assistant; msg_user; msg_assistant]);
    reflexivity.
Defined.

Lemma build_turns_one_per_user_witness :
  let msgs := [msg_user; msg_assistant; msg_tool_result; msg_user;
               msg_assistant] in
  all_replied msgs = true
  ∧ opens_turn msg_user = true
  ∧ forallb quiet [msg_tool_result] = true
  ∧ map user_msg (build_turns (H := example_builtins) msgs)
    = [msg_user; msg_user]
  ∧ length (build_turns (H := example_builtins) msgs) = 2%nat
  ∧ Forall (λ t, assistant_msgs t ≠ [])
      (build_turns (H := example_builtins) msgs)
  ∧ build_turns (H := example_builtins) (msgs ++ msg_user :: [msg_tool_result])
    = build_turns (H := example_builtins) msgs.
Proof.
  cbn zeta. split; [reflexivity|]. split; [reflexivity|].
  split; [reflexivity|].
  apply (build_turns_one_per_user (H := example_builtins)
           [msg_user; msg_assistant; msg_tool_result; msg_user; msg_assistant]
           [msg_tool_result] msg_user); reflexivity.
Defined.

Lemma tool_result_redelivery_witness :
  is_tool_result msg_tool_result = true
  ∧ tool_results (step (H := example_builtins) start msg_tool_result)
      !! py "t1" = Some (JStr (py "ok"))
  ∧ build_turns (H := example_builtins)
      ([msg_user; msg_assistant] ++ repeat msg_tool_result 3 ++ [msg_user])
    = build_turns (H := example_builtins)
        ([msg_user; msg_assistant] ++ msg_tool_result :: [msg_user]).
Proof.
  split; [reflexivity|].
  destruct (tool_result_redelivery (H := example_builtins) msg_tool_result
              start 2 [msg_user; msg_assistant] [msg_user] eq_refl)
    as (_ & Hlast & _ & _ & Hturns).
  split; [|exact Hturns]. rewrite Hlast. reflexivity.
Defined.

(** C7 as stated fails for a negative limit: [s[:-1]] drops the last
    character only, and no text is shorter than [-1]. *)
Lemma truncate_text_negative_limit :
  ∃ meta,
    truncate_text (H := example_builtins) (Some (py "abc")) (-1)
    = Some (py "ab", meta)
    ∧ ¬ (len (py "ab") ≤ -1).
Proof.
  eexists. split; [reflexivity|]. unfold len. cbn. lia.
Qed.

Lemma truncate_text_bounded_witness :
  0 ≤ 2
  ∧ (len (py "abc") ≤ 2 ∨ is_Some (utf8_encode (py "abc")))
  ∧ ∃ meta,
      truncate_text (H := example_builtins) (Some (py "abc")) 2
      = Some (py "ab", meta)
      ∧ meta !! py "truncated" = Some (JBool true)
      ∧ meta !! py "sha256" = Some (JStr (py "abc")).
Proof.
  assert (is_Some (utf8_encode (py "abc"))) as Henc by (by eexists).
  split; [lia|]. split; [by right|].
  destruct (truncate_text_bounded (H := example_builtins) (py "abc") 2
              ltac:(lia) (or_intror Henc))
    as (text & meta & Heq & _ & Hmeta).
  exists meta. cbn in Hmeta. destruct Hmeta as (-> & Ht & _ & _ & Hsha).
  split; [exact Heq|]. split; [exact Ht|exact Hsha].
Defined.

(** C8 as stated fails on empty text fragments and on bare strings: the
    code drops the first and keeps the second. *)
Lemma extract_text_differs_from_specified :
  let c1 := JList [text_fragment "a"; text_fragment ""; text_fragment "b"] in
  let c2 := JList [JStr (py "abc")] in
  extract_text c1 = Some (py "a" ++ [LF] ++ py "b")
  ∧ extract_text_as_specified c1 = py "a" ++ [LF; LF] ++ py "b"
  ∧ extract_text c2 = Some (py "abc")
  ∧ extract_text_as_specified c2 = []
  ∧ extract_text c1 ≠ Some (extract_text_as_specified c1)
  ∧ extract_text c2 ≠ Some (extract_text_as_specified c2).
Proof.
  cbn zeta. repeat (split; [reflexivity|]). split; discriminate.
Qed.

Lemma extract_text_shapes_witness :
  let c := JList [text_fragment "a"; JStr (py "b"); text_fragment "";
                  JObj (<[py "type" := JStr (py "tool_use")]> ∅); JInt 7] in
  content_ok c = true
  ∧ extract_text c = Some (py "a" ++ [LF] ++ py "b").
Proof.
  cbn zeta. split; [reflexivity|].
  rewrite extract_text_shapes by reflexivity. reflexivity.
Defined.

(** ** Instances of the further properties *)

Lemma session_state_round_trip_witness :
  let ss := {| offset := 37; buffer := py "{par"; turn_count := 1 |} in
  let g := write_session_state ∅ (py "a") ss (py "t0") in
  py "b" ≠ py "a"
  ∧ load_session_state (H := example_builtins)
      (JObj (write_session_state g (py "a") ss (py "t1"))) (py "a") = Some ss
  ∧ load_session_state (H := example_builtins)
      (JObj (write_session_state g (py "a") ss (py "t1"))) (py "b")
    = load_session_state (H := example_builtins) (JObj g) (py "b").
Proof.
  cbn zeta. split; [discriminate|].
  apply (session_state_round_trip (H := example_builtins)). discriminate.
Defined.

Lemma read_new_jsonl_reaches_end_witness :
  let data := line_user ++ [LF] ++ py "{par" in
  let ss := {| offset := 16; buffer := []; turn_count := 0 |} in
  0 ≤ offset ss ≤ len data
  ∧ ∃ msgs ss',
      read_new_jsonl (H := example_builtins) (Contents data) ss
      = Some (msgs, ss')
      ∧ offset ss' = len data.
Proof.
  cbn zeta. split; [vm_compute; split; discriminate|].
  apply (read_new_jsonl_reaches_end (H := example_builtins)).
  vm_compute; split; discriminate.
Defined.

Lemma read_new_jsonl_buffer_one_line_witness :
  let f := Contents (line_user ++ [LF] ++ py "{par") in
  let ss := {| offset := 0; buffer := []; turn_count := 0 |} in
  (LF ∉ buffer ss)
  ∧ f ≠ Inaccessible
  ∧ ∃ msgs ss',
      read_new_jsonl (H := example_builtins) f ss = Some (msgs, ss')
      ∧ (LF ∉ buffer ss').
Proof.
  cbn zeta. split; [apply not_elem_of_nil|]. split; [discriminate|].
  apply (read_new_jsonl_buffer_one_line (H := example_builtins));
    [apply not_elem_of_nil|discriminate].
Defined.

Lemma read_new_jsonl_unchanged_file_witness :
  let f := Contents (line_user ++ [LF] ++ py "{par") in
  let ss := {| offset := 0; buffer := []; turn_count := 0 |} in
  f ≠ Inaccessible
  ∧ ∃ msgs ss',
      read_new_jsonl (H := example_builtins) f ss = Some (msgs, ss')
      ∧ read_new_jsonl (H := example_builtins) f ss' = Some ([], ss').
Proof.
  cbn zeta. split; [discriminate|].
  apply (read_new_jsonl_unchanged_file (H := example_builtins)).
  discriminate.
Defined.

Lemma read_new_jsonl_holds_partial_line_witness :
  let old := line_user ++ [LF] in
  let chunk := py "{par" in
  (LF ∉ @nil N) ∧ (LF ∉ chunk) ∧ chunk ≠ []
  ∧ read_new_jsonl (H := example_builtins) (Contents (old ++ chunk))
      {| offset := len old; buffer := []; turn_count := 0 |}
    = Some ([], {| offset := len (old ++ chunk);
                   buffer := [] ++ utf8_decode chunk;
                   turn_count := 0 |}).
Proof.
  cbn zeta.
  assert (LF ∉ py "{par") as Hno
    by (apply (bool_decide_unpack _); vm_compute; exact I).
  split; [apply not_elem_of_nil|]. split; [exact Hno|].
  split; [discriminate|].
  apply (read_new_jsonl_holds_partial_line (H := example_builtins));
    [apply not_elem_of_nil|exact Hno|discriminate].
Defined.

Lemma build_turns_app_witness :
  opens_turn msg_user = true
  ∧ build_turns (H := example_builtins)
      ([msg_user; msg_assistant; msg_tool_result]
       ++ msg_user :: [msg_assistant])
    = build_turns (H := example_builtins)
        [msg_user; msg_assistant; msg_tool_result]
      ++ build_turns (H := example_builtins) (msg_user :: [msg_assistant]).
Proof.
  split; [reflexivity|].
  apply (build_turns_app (H := example_builtins)). reflexivity.
Defined.

Lemma build_turns_skips_unopened_witness :
  forallb (fun m => negb (opens_turn m)) [msg_assistant; msg_tool_result]
  = true
  ∧ build_turns (H := example_builtins)
      ([msg_assistant; msg_tool_result] ++ [msg_user; msg_assistant])
    = build_turns (H := example_builtins) [msg_user; msg_assistant].
Proof.
  split; [reflexivity|].
  apply (build_turns_skips_unopened (H := example_builtins)). reflexivity.
Defined.

Lemma build_turns_tool_results_scoped_witness :
  let body := [msg_assistant; msg_tool_result; msg_tool_result] in
  opens_turn msg_user = true
  ∧ forallb (fun m => negb (opens_turn m)) body = true
  ∧ Forall (fun t => user_msg t = msg_user
                     ∧ ∀ k, tool_results_by_id t !! k
                            = last_write (H := example_builtins) k
                                (tool_fragments body))
      (build_turns (H := example_builtins) (msg_user :: body)).
Proof.
  cbn zeta. split; [reflexivity|]. split; [reflexivity|].
  apply (build_turns_tool_results_scoped (H := example_builtins));
    reflexivity.
Defined.

Lemma build_turns_latest_per_id_witness :
  let body := [msg_reply "m1" "a"; msg_reply "m2" "b"; msg_tool_result;
               msg_reply "m1" "c"] in
  opens_turn msg_user = true
  ∧ forallb (fun m => negb (opens_turn m)) body = true
  ∧ Forall (fun m => is_reply m = true → is_Some (get_message_id m)) body
  ∧ Forall (fun t => assistant_msgs t
                     = omap (fun mid => latest_with mid body)
                         (first_seen (reply_ids body)))
      (build_turns (H := example_builtins) (msg_user :: body)).
Proof.
  cbn zeta.
  assert (Forall (fun m => is_reply m = true → is_Some (get_message_id m))
            [msg_reply "m1" "a"; msg_reply "m2" "b"; msg_tool_result;
             msg_reply "m1" "c"]) as Hids.
  { repeat (apply Forall_cons; split;
              [first [intros _; by eexists
                     |intros Hr; vm_compute in Hr; discriminate Hr]|]).
    apply Forall_nil_2. }
  split; [reflexivity|]. split; [reflexivity|]. split; [exact Hids|].
  apply (build_turns_latest_per_id (H := example_builtins));
    [reflexivity|reflexivity|exact Hids].
Defined.

Lemma build_turns_keeps_unnamed_witness :
  let body := [msg_assistant; msg_tool_result; msg_assistant] in
  opens_turn msg_user = true
  ∧ forallb (fun m => negb (opens_turn m)) body = true
  ∧ Forall (fun m => is_reply m = true → get_message_id m = None) body
  ∧ Forall (fun t => assistant_msgs t = List.filter is_reply body)
      (build_turns (H := example_builtins) (msg_user :: body)).
Proof.
  cbn zeta.
  assert (Forall (fun m => is_reply m = true → get_message_id m = None)
            [msg_assistant; msg_tool_result; msg_assistant]) as Hids.
  { repeat (apply Forall_cons; split; [intros _; reflexivity|]).
    apply Forall_nil_2. }
  split; [reflexivity|]. split; [reflexivity|]. split; [exact Hids|].
  apply (build_turns_keeps_unnamed (H := example_builtins));
    [reflexivity|reflexivity|exact Hids].
Defined.

Lemma main_second_run_emits_nothing_witness :
  let w := scenario_world in
  let again := @main example_builtins
                 (next_world w scenario_saved (files w) (py "later")) in
  saved (@main example_builtins w) = Some scenario_saved
  ∧ turn_numbers (trace again) = []
  ∧ ∃ g2, saved again = Some g2
          ∧ ∀ k, load_session_state (H := example_builtins) (JObj g2) k
                 = load_session_state (H := example_builtins)
                     (JObj scenario_saved) k.
Proof.
  cbn zeta. split; [reflexivity|].
  apply (main_second_run_emits_nothing (H := example_builtins)
           scenario_world scenario_saved (py "later")).
  reflexivity.
Defined.

Lemma main_turn_numbers_advance_witness :
  let w := scenario_world in
  let w2 := next_world w scenario_saved grown_files (py "later") in
  saved (@main example_builtins w) = Some scenario_saved
  ∧ turn_numbers (trace (@main example_builtins w)) = [1]
  ∧ turn_numbers (trace (@main example_builtins w2)) = [2]
  ∧ 1 < 2.
Proof.
  cbn zeta. split; [reflexivity|]. split; [reflexivity|].
  split; [reflexivity|].
  apply (main_turn_numbers_advance (H := example_builtins) scenario_world
           scenario_saved grown_files (py "later") 1 2);
    [reflexivity| |].
  - change (1 ∈ [1]). apply list_elem_of_here.
  - change (2 ∈ [2]). apply list_elem_of_here.
Defined.


Lemma main_without_lock_witness :
  let w := lockless_world in
  env_enabled w = py "true"
  ∧ _create_provider w (env_provider w) = Some failing_provider
  ∧ extract_session_and_transcript (H := example_builtins)
      (read_hook_payload (H := example_builtins) (stdin w))
    = Some (JStr (py "s1"), Some (py "/tmp/t.jsonl"))
  ∧ file_exists (files w (py "/tmp/t.jsonl")) = Some true
  ∧ lock_opens w = false
  ∧ @main example_builtins w
    = {| status := Some 0; saved := None;
         trace := [Constructed (py "otlp"); Shutdown Returns] |}.
Proof.
  cbn zeta. split; [reflexivity|]. split; [reflexivity|].
  split; [reflexivity|]. split; [reflexivity|]. split; [reflexivity|].
  apply (main_without_lock (H := example_builtins) lockless_world
           failing_provider (JStr (py "s1")) (py "/tmp/t.jsonl"));
    reflexivity.
Defined.

Lemma main_touches_one_session_witness :
  let w := next_world scenario_world scenario_saved grown_files (py "later") in
  let g1 := write_session_state scenario_saved (py "s1::/tmp/t.jsonl")
              {| offset := 74; buffer := []; turn_count := 2 |} (py "later") in
  saved (@main example_builtins w) = Some g1
  ∧ ∃ sid path key g ss0 ss1,
      extract_session_and_transcript (H := example_builtins)
        (read_hook_payload (H := example_builtins) (stdin w))
      = Some (sid, Some path)
      ∧ state_key (H := example_builtins) (py_str (H := example_builtins) sid) path = Some key
      ∧ load_state (state_file w) = JObj g
      ∧ (∀ k, k ≠ key → g1 !! k = g !! k)
      ∧ load_session_state (H := example_builtins) (JObj g) key = Some ss0
      ∧ load_session_state (H := example_builtins) (JObj g1) key = Some ss1
      ∧ offset ss0 ≤ offset ss1
      ∧ turn_count ss0 ≤ turn_count ss1.
Proof.
  cbn zeta. split; [reflexivity|].
  apply (main_touches_one_session (H := example_builtins)
           (next_world scenario_world scenario_saved grown_files (py "later"))).
  reflexivity.
Defined.

Lemma truncate_text_again_witness :
  let T := py "hello" in
  let meta := match truncate_text (H := example_builtins) (Some T) 3 with
              | Some (_, m) => m
              | None => ∅
              end in
  0 ≤ 3
  ∧ truncate_text (H := example_builtins) (Some T) 3 = Some (py "hel", meta)
  ∧ py "hel" `prefix_of` T
  ∧ truncate_text (H := example_builtins) (Some (py "hel")) 3
    = Some (py "hel", <[py "truncated" := JBool false]>
                        (<[py "orig_len" := JInt (len (py "hel"))]> ∅)).
Proof.
  cbn zeta. split; [lia|]. split; [reflexivity|].
  apply (truncate_text_again (H := example_builtins) (py "hello") (py "hel")
           match truncate_text (H := example_builtins) (Some (py "hello")) 3
           with
           | Some (_, m) => m
           | None => ∅
           end 3); [lia|reflexivity].
Defined.

Lemma call_output_last_result_witness :
  let body := [msg_assistant; msg_tool_result; msg_tool_result] in
  let t := {| user_msg := msg_user; assistant_msgs := [msg_assistant];
              tool_results_by_id := <[py "t1" := JStr (py "ok")]> ∅ |} in
  let dumps : json → pystr := fun _ => py "null" in
  opens_turn msg_user = true
  ∧ forallb (fun m => negb (opens_turn m)) body = true
  ∧ t ∈ build_turns (H := example_builtins) (msg_user :: body)
  ∧ get tool_use_t1 "id" = JStr (py "t1")
  ∧ call_output (H := example_builtins) dumps 20000 (tool_results_by_id t)
      (tool_call (H := example_builtins) (JObj tool_use_t1))
    = Some (JStr (py "ok")).
Proof.
  cbn zeta.
  assert ({| user_msg := msg_user; assistant_msgs := [msg_assistant];
             tool_results_by_id := <[py "t1" := JStr (py "ok")]> ∅ |}
          ∈ build_turns (H := example_builtins)
              (msg_user :: [msg_assistant; msg_tool_result; msg_tool_result]))
    as Ht by apply list_elem_of_here.
  split; [reflexivity|]. split; [reflexivity|]. split; [exact Ht|].
  split; [reflexivity|].
  exact (call_output_last_result (H := example_builtins) (fun _ => py "null")
           20000 msg_user [msg_assistant; msg_tool_result; msg_tool_result]
           _ tool_use_t1 116%N (py "1") eq_refl eq_refl Ht eq_refl).
Defined.

Lemma read_new_jsonl_resumes_before_ascii_witness :
  let pre := line_user ++ [LF] ++ py "{'ty" in
  let new := py "e':'assistant'}" ++ [LF] in
  let s0 := {| offset := len (@nil N); buffer := []; turn_count := 0 |} in
  (112 <? 128)%N = true
  ∧ ∃ m1 s1 m2 s2,
      read_new_jsonl (H := example_builtins) (Contents ([] ++ pre)) s0
      = Some (m1, s1)
      ∧ read_new_jsonl (H := example_builtins)
          (Contents ([] ++ pre ++ 112%N :: new)) s1
        = Some (m2, s2)
      ∧ read_new_jsonl (H := example_builtins)
          (Contents ([] ++ pre ++ 112%N :: new)) s0
        = Some (m1 ++ m2, s2).
Proof.
  cbn zeta. split; [reflexivity|].
  apply (read_new_jsonl_resumes_before_ascii (H := example_builtins) []
           (line_user ++ [LF] ++ py "{'ty") 112%N
           (py "e':'assistant'}" ++ [LF]) [] 0).
  reflexivity.
Defined.
